(** * yolo-cli: the MCP server manager and its configuration loader

    A shallow embedding of [src/services/mcp.ts] (the [McpServerManager]
    class), of [src/types/mcp.ts] (its data model) and of the MCP
    configuration loader [utils/mcp-config.ts] ([discoverConfigs],
    [mergeConfigs]; the file is kept as [src/unnamed/part_015]), followed
    by the properties of the specification stated and proved over it.

    Conventions of the embedding.
    - A JavaScript string is a [string]; [indexOf] and [slice] follow
      [String.prototype.indexOf] and [String.prototype.slice].
    - A plain object used as a dictionary ([Record<string, T>]) is a finite
      map of its own properties, [gmap string T]; [Object.entries] is
      [map_to_list]. Where [mergeConfigs] reads and writes such an object
      under a name that comes from a file, the prototype of the object is
      modelled too.
    - A JavaScript [Map] is iterated in insertion order, so it is an
      association list ([JsMap]).
    - A [throw] is the [Throw] completion; a thrown value is an [Error]
      object, as the casts [(error as Error)] of the source take it to be.
    - [console.warn] and [console.info] append to a console log.
    - Wall-clock fields ([startedAt], [timestamp], [durationMs]) are left
      out, and so is the back reference [McpTool.server]; objects are
      modelled by value. *)

From Stdlib Require Import ZArith String Ascii List Permutation.
From stdpp Require Import base option list gmap strings fin_maps.

Local Open Scope string_scope.
Local Open Scope list_scope.
Local Open Scope Z_scope.

Set Warnings "-register-all".

(** ** JavaScript strings *)

Module Js.

(** [s.indexOf(needle)]: index of the first occurrence, or [-1]. *)
Fixpoint indexOfFrom (needle s : string) (i : Z) : Z :=
  if String.prefix needle s then i
  else match s with
       | EmptyString => -1
       | String _ s' => indexOfFrom needle s' (i + 1)
       end.

Definition indexOf (s needle : string) : Z := indexOfFrom needle s 0.

(** [s.slice(start, end)]; a negative index counts from the end and
    every index is clamped to the string. [None] is an omitted [end]. *)
Definition slice (s : string) (start : Z) (end_ : option Z) : string :=
  let len := Z.of_nat (String.length s) in
  let clamp i := if i <? 0 then Z.max (len + i) 0 else Z.min i len in
  let from := clamp start in
  let to := match end_ with Some e => clamp e | None => len end in
  String.substring (Z.to_nat from) (Z.to_nat (to - from)) s.

(** [needle] occurs somewhere in [s]. *)
Fixpoint occursIn (needle s : string) : bool :=
  String.prefix needle s ||
  match s with
  | EmptyString => false
  | String _ s' => occursIn needle s'
  end.

(** [s.endsWith("_")]. *)
Fixpoint endsWithUnderscore (s : string) : bool :=
  match s with
  | EmptyString => false
  | String c EmptyString => Ascii.eqb c "_"
  | String _ s' => endsWithUnderscore s'
  end.

(** JSON values: tool arguments, tool content, input schemas and the
    result of [JSON.parse]. *)
Inductive Value :=
| Null
| Bool (b : bool)
| Num (n : Z)
| Str (s : string)
| Arr (items : list Value)
| Obj (props : list (string * Value)).

(** An [Error] object: its [message] and its optional [code]. *)
Record Error := { message : string; code : option string }.

Inductive Completion (A : Type) :=
| Normal (a : A)
| Throw (e : Error).
Arguments Normal {A} a.
Arguments Throw {A} e.

(** Code that reads and writes a state [S] and may throw. *)
Definition M (S A : Type) : Type := S → Completion A * S.

Definition throw {S A} (e : Error) : M S A := λ s, (Throw e, s).
Definition getState {S} : M S S := λ s, (Normal s, s).
Definition modify {S} (f : S → S) : M S unit := λ s, (Normal tt, f s).
Definition lift {S A} (c : Completion A) : M S A := λ s, (c, s).

(** [try { body } catch (error) { handler }] *)
Definition try_catch {S A} (body : M S A) (handler : Error → M S A) : M S A :=
  λ s, match body s with
       | (Normal a, s') => (Normal a, s')
       | (Throw e, s') => handler e s'
       end.

(** Run [f] on every element in turn; a throw ends the loop. *)
Fixpoint forEach {S A} (f : A → M S unit) (l : list A) : M S unit :=
  match l with
  | [] => λ s, (Normal tt, s)
  | x :: l' => λ s,
      match f x s with
      | (Normal _, s') => forEach f l' s'
      | (Throw e, s') => (Throw e, s')
      end
  end.

End Js.

Import Js.

Global Instance M_ret {S} : MRet (M S) := λ A a s, (Normal a, s).
Global Instance M_bind {S} : MBind (M S) := λ A B f m s,
  match m s with
  | (Normal a, s') => f a s'
  | (Throw e, s') => (Throw e, s')
  end.

(** ** JavaScript [Map]: keys in insertion order *)

Module JsMap.
Section JsMap.
Context {V : Type}.

Fixpoint get (k : string) (m : list (string * V)) : option V :=
  match m with
  | [] => None
  | (k', v) :: m' => if String.eqb k k' then Some v else get k m'
  end.

(** [set] keeps the position of a key already present and appends a
    new one. *)
Fixpoint set (k : string) (v : V) (m : list (string * V)) : list (string * V) :=
  match m with
  | [] => [(k, v)]
  | (k', v') :: m' =>
      if String.eqb k k' then (k, v) :: m' else (k', v') :: set k v m'
  end.

Definition values (m : list (string * V)) : list V := m.*2.
Definition entries (m : list (string * V)) : list (string * V) := m.
Definition clear (m : list (string * V)) : list (string * V) := [].
End JsMap.
End JsMap.

(** ** The data model ([src/types/mcp.ts]) *)

Module MCP_ERROR_CODES.
Definition INVALID_CONFIG := "INVALID_CONFIG".
Definition MISSING_COMMAND := "MISSING_COMMAND".
Definition INVALID_ENV_VAR := "INVALID_ENV_VAR".
Definition COMMAND_NOT_FOUND := "COMMAND_NOT_FOUND".
Definition SPAWN_FAILED := "SPAWN_FAILED".
Definition CONNECT_TIMEOUT := "CONNECT_TIMEOUT".
Definition INITIALIZE_FAILED := "INITIALIZE_FAILED".
Definition SERVER_CRASHED := "SERVER_CRASHED".
Definition DISCONNECTED := "DISCONNECTED".
Definition TOOL_NOT_FOUND := "TOOL_NOT_FOUND".
Definition TOOL_EXECUTION_FAILED := "TOOL_EXECUTION_FAILED".
Definition TOOL_TIMEOUT := "TOOL_TIMEOUT".

(** The values of the [MCP_ERROR_CODES] object, i.e. [McpErrorCode]. *)
Definition values : list string :=
  [ INVALID_CONFIG; MISSING_COMMAND; INVALID_ENV_VAR;
    COMMAND_NOT_FOUND; SPAWN_FAILED; CONNECT_TIMEOUT; INITIALIZE_FAILED;
    SERVER_CRASHED; DISCONNECTED; TOOL_NOT_FOUND; TOOL_EXECUTION_FAILED;
    TOOL_TIMEOUT ].
End MCP_ERROR_CODES.

Record McpServerConfig := {
  command : string;
  args : option (list string);
  env : option (gmap string string);
  timeout : option Z;
  url : option string;
  headers : option (gmap string string);
}.

Record McpConfig := { mcpServers : gmap string McpServerConfig }.

(** The union type ['global' | 'project']. *)
Inductive ConfigSource := global | project.

Global Instance ConfigSource_eq_dec : EqDecision ConfigSource.
Proof. solve_decision. Defined.

Record MergedConfig := {
  merged_mcpServers : gmap string McpServerConfig;
  merged_sources : gmap string ConfigSource;
}.

Inductive McpServerState :=
| CREATED | CONNECTING | INITIALIZED | OPERATING | FAILED | CLOSED.

(** The string value of each member of the enum. *)
Definition stateValue (s : McpServerState) : string :=
  match s with
  | CREATED => "created"
  | CONNECTING => "connecting"
  | INITIALIZED => "initialized"
  | OPERATING => "operating"
  | FAILED => "failed"
  | CLOSED => "closed"
  end.

Global Instance McpServerState_eq_dec : EqDecision McpServerState.
Proof. solve_decision. Defined.

Record McpServerError := {
  err_code : string;
  err_message : string;
  err_serverName : string;
  err_configPath : string;
  err_details : option Error;
}.

Record McpTool := {
  tool_name : string;
  originalName : string;
  description : string;
  inputSchema : Value;
  tool_serverName : string;
}.

(** *** The SDK client

    What [Client] and [StdioClientTransport] of the MCP SDK do is decided
    by the provider process, outside the program: each method is given
    by its outcome. *)

Record StdioClientTransport := {
  tr_command : string;
  tr_args : option (list string);
  tr_env : option (gmap string string);
}.

(** One tool as the provider lists it. *)
Record ProviderTool := {
  pt_name : string;
  pt_description : option string;
  pt_inputSchema : Value;
}.

Record ListToolsResponse := { resp_tools : option (list ProviderTool) }.
Record CallToolResponse := { resp_content : list Value }.

Record Client := {
  connect : StdioClientTransport → Completion unit;
  listTools : Completion ListToolsResponse;
  client_callTool : string → Value → Completion CallToolResponse;
  close : Completion unit;
}.

Record McpServerInstance := {
  name : string;
  config : McpServerConfig;
  client : Client;
  state : McpServerState;
  tools : list McpTool;
  source : ConfigSource;
  error : option McpServerError;
}.

Definition set_state (s : McpServerState) (i : McpServerInstance) :=
  {| name := name i; config := config i; client := client i; state := s;
     tools := tools i; source := source i; error := error i |}.
Definition set_tools (ts : list McpTool) (i : McpServerInstance) :=
  {| name := name i; config := config i; client := client i; state := state i;
     tools := ts; source := source i; error := error i |}.
Definition set_source (src : ConfigSource) (i : McpServerInstance) :=
  {| name := name i; config := config i; client := client i; state := state i;
     tools := tools i; source := src; error := error i |}.
Definition set_error (e : McpServerError) (i : McpServerInstance) :=
  {| name := name i; config := config i; client := client i; state := state i;
     tools := tools i; source := source i; error := Some e |}.

Record ToolExecutionError := {
  te_code : string;
  te_message : string;
  te_toolName : string;
  te_arguments : Value;
  te_details : option Error;
}.

Record ToolMetadata := { md_serverName : string; md_toolName : string }.

Record ToolResult := {
  success : bool;
  content : option (list Value);
  tr_error : option ToolExecutionError;
  metadata : option ToolMetadata;
}.

Record LoadResult := {
  lr_servers : list McpServerInstance;
  lr_errors : list McpServerError;
  toolCount : nat;
}.

(** ** The console *)

Inductive LogEntry :=
| ConsoleWarn (text : string)
| ConsoleInfo (text : string).

Definition Console := list LogEntry.

(** ** The configuration loader ([utils/mcp-config.ts]) *)

Module McpConfigLoader.

(** What a file holds, as [JSON.parse] sees it: text that is not JSON
    (with the message of the [SyntaxError]) or the text of a JSON value. *)
Inductive FileContent :=
| NotJson (syntaxError : string)
| Json (v : Value).

Definition JSON_parse (content : FileContent) : Completion Value :=
  match content with
  | NotJson msg => Throw {| message := msg; code := None |}
  | Json v => Normal v
  end.

(** The process environment: [os.homedir()], [process.platform],
    [process.cwd()], [path.join] and [fs.readFile(_, 'utf-8')]. *)
Record Env := {
  homedir : string;
  platform : string;
  cwd : string;
  path_join : list string → string;
  readFile : string → Completion FileContent;
}.

Definition warn (text : string) : M Console unit :=
  modify (λ console, console ++ [ConsoleWarn text]).

Definition getGlobalConfigPath (e : Env) : string :=
  let homeDir := homedir e in
  if String.eqb (platform e) "win32"
  then path_join e [homeDir; ".yolo-cli"; "mcp.json"]
  else path_join e [homeDir; ".config"; "yolo-cli"; "mcp.json"].

Definition getProjectConfigPath (e : Env) (workingDir : option string) : string :=
  let cwd := default (cwd e) workingDir in
  path_join e [cwd; ".yolo"; "mcp.json"].

Definition loadFailure (filePath : string) (error : Error) : string :=
  "Warning: Failed to load MCP config from " +:+ filePath +:+ ": " +:+ message error.

(** The result is [JSON.parse(content) as McpConfig]: the cast checks
    nothing, so the value is whatever the file holds; [Null] is [null]. *)
Definition loadConfigFile (e : Env) (filePath : string) : M Console Value :=
  try_catch
    (content ← lift (readFile e filePath);
     config ← lift (JSON_parse content);
     mret config)
    (λ error,
       if decide (code error = Some "ENOENT") then mret Null
       else
         warn (loadFailure filePath error);;
         mret Null).

(** What one slot of [discoverConfigs] holds and what was printed for
    it, given the outcome [r] of reading its file. *)
Definition slotOutcome (filePath : string) (r : Completion FileContent)
    (slot : Value) (printed : list LogEntry) : Prop :=
  match r with
  | Throw err =>
      slot = Null ∧
      printed = if decide (code err = Some "ENOENT") then []
                else [ConsoleWarn (loadFailure filePath err)]
  | Normal (NotJson msg) =>
      slot = Null ∧
      printed = [ConsoleWarn (loadFailure filePath {| message := msg; code := None |})]
  | Normal (Json v) => slot = v ∧ printed = []
  end.

(** [Promise.all] over the two reads: each runs to its end, in the
    order they settle; [projectFirst] says that the project read settles
    before the global one. *)
Definition discoverConfigs (e : Env) (workingDir : option string)
    (projectFirst : bool) : M Console (Value * Value) :=
  let globalPath := getGlobalConfigPath e in
  let projectPath := getProjectConfigPath e workingDir in
  if projectFirst then
    project ← loadConfigFile e projectPath;
    global ← loadConfigFile e globalPath;
    mret (global, project)
  else
    global ← loadConfigFile e globalPath;
    project ← loadConfigFile e projectPath;
    mret (global, project).

(** *** The objects that [mergeConfigs] builds

    [merged.mcpServers] and [merged.sources] are object literals [{}]:
    the prototype of each is [Object.prototype]. A read [object[name]]
    that finds no property of that name on the object itself goes on to
    its prototype, and an assignment [object['__proto__'] = value] runs
    the setter of the accessor [__proto__] of [Object.prototype] instead
    of creating a property. *)

(** The names of the properties of [Object.prototype]. *)
Definition objectPrototypeNames : list string :=
  [ "constructor"; "hasOwnProperty"; "isPrototypeOf"; "propertyIsEnumerable";
    "toLocaleString"; "toString"; "valueOf"; "__proto__";
    "__defineGetter__"; "__defineSetter__"; "__lookupGetter__";
    "__lookupSetter__" ].

(** The prototype of [merged.mcpServers]: [Object.prototype], or the
    entry that an assignment under [__proto__] has put in its place. An
    entry is a plain object, whose own prototype is [Object.prototype]. *)
Inductive Prototype :=
| ObjectPrototype
| EntryAsPrototype (config : McpServerConfig).

(** What the read [merged.mcpServers[name]] gives: [undefined], an entry,
    a string, a number, or some other object (an array, a record, a
    function or a prototype). *)
Inductive Read :=
| Undefined
| EntryValue (config : McpServerConfig)
| StringValue (s : string)
| NumberValue (n : Z)
| ObjectValue.

(** [ToBoolean], as the test of an [if] applies it. *)
Definition truthy (v : Read) : bool :=
  match v with
  | Undefined => false
  | EntryValue _ => true
  | StringValue s => negb (String.eqb s "")
  | NumberValue n => negb (n =? 0)
  | ObjectValue => true
  end.

(** The property [name] of an entry, if the entry has it: the interface
    [McpServerConfig] has a [command] and five optional members. *)
Definition fieldOf (config : McpServerConfig) (name : string) : option Read :=
  if String.eqb name "command" then Some (StringValue (command config))
  else if String.eqb name "args" then (λ _, ObjectValue) <$> args config
  else if String.eqb name "env" then (λ _, ObjectValue) <$> env config
  else if String.eqb name "timeout" then NumberValue <$> timeout config
  else if String.eqb name "url" then StringValue <$> url config
  else if String.eqb name "headers" then (λ _, ObjectValue) <$> headers config
  else None.

(** A read that reaches the prototype. Every member of
    [Object.prototype] is a function, but for [__proto__], whose getter
    gives the prototype of the object that is read. *)
Definition inheritedFrom (proto : Prototype) (name : string) : Read :=
  let ofObjectPrototype :=
    if bool_decide (name ∈ objectPrototypeNames) then ObjectValue else Undefined in
  match proto with
  | ObjectPrototype => ofObjectPrototype
  | EntryAsPrototype config => default ofObjectPrototype (fieldOf config name)
  end.

(** The object [merged] while the loops run: the own properties of its
    two members, and the prototype of [merged.mcpServers]. The prototype
    of [merged.sources] stays [Object.prototype]: the setter of
    [__proto__] ignores a value that is not an object, and the tags are
    strings. *)
Record Merging := {
  properties : MergedConfig;
  prototype : Prototype;
}.

(** [merged.mcpServers[name]] *)
Definition getServer (merged : Merging) (name : string) : Read :=
  match merged_mcpServers (properties merged) !! name with
  | Some config => EntryValue config
  | None => inheritedFrom (prototype merged) name
  end.

(** [merged.mcpServers[name] = config]: an own property is overwritten;
    otherwise the name [__proto__] reaches the setter, which makes
    [config] the prototype, and any other name becomes an own property
    (the members of the prototype are writable data properties). *)
Definition setServer (name : string) (config : McpServerConfig)
    (merged : Merging) : Merging :=
  let own := properties merged in
  if decide (name = "__proto__" ∧ merged_mcpServers own !! name = None)
  then {| properties := own; prototype := EntryAsPrototype config |}
  else {| properties :=
            {| merged_mcpServers := <[name := config]> (merged_mcpServers own);
               merged_sources := merged_sources own |};
          prototype := prototype merged |}.

(** [merged.sources[name] = src]: under the name [__proto__] the setter
    is given a string and does nothing. *)
Definition setSource (name : string) (src : ConfigSource)
    (merged : Merging) : Merging :=
  let own := properties merged in
  if decide (name = "__proto__" ∧ merged_sources own !! name = None)
  then merged
  else {| properties :=
            {| merged_mcpServers := merged_mcpServers own;
               merged_sources := <[name := src]> (merged_sources own) |};
          prototype := prototype merged |}.

(** [merged.mcpServers[name] = config; merged.sources[name] = src] *)
Definition setEntry (name : string) (config : McpServerConfig)
    (src : ConfigSource) (merged : Merging) : Merging :=
  setSource name src (setServer name config merged).

(** The body of the second loop: the notice when the read
    [merged.mcpServers[name]] is truthy, then the assignment. *)
Definition mergeProjectEntry (acc : Merging * Console)
    (entry : string * McpServerConfig) : Merging * Console :=
  let '(merged, console) := acc in
  let '(name, config) := entry in
  let console :=
    if truthy (getServer merged name)
    then console ++ [ConsoleInfo ("MCP server '" +:+ name +:+
           "' defined in both global and project configs - using project configuration")]
    else console in
  (setEntry name config project merged, console).

(** The two loops run over [Object.entries] of each configuration. The
    object returned is given by its own properties, which is how
    [loadFromConfig] reads it ([Object.entries]). *)
Definition mergeConfigs (global_ project_ : option McpConfig)
    : M Console MergedConfig := λ console,
  let merged :=
    {| properties := {| merged_mcpServers := ∅; merged_sources := ∅ |};
       prototype := ObjectPrototype |} in
  let merged :=
    match global_ with
    | Some g =>
        foldl (λ merged '(name, config), setEntry name config global merged)
              merged (map_to_list (mcpServers g))
    | None => merged
    end in
  let '(merged, console) :=
    match project_ with
    | Some p => foldl mergeProjectEntry (merged, console) (map_to_list (mcpServers p))
    | None => (merged, console)
    end in
  (Normal (properties merged), console).

(** No own property of [merged] is called [__proto__]. *)
Definition plain (merged : Merging) : Prop :=
  merged_mcpServers (properties merged) !! "__proto__" = None ∧
  merged_sources (properties merged) !! "__proto__" = None.

(** The entries of a configuration that may be [null]. *)
Definition entriesOf (c : option McpConfig) : gmap string McpServerConfig :=
  match c with
  | Some c => mcpServers c
  | None => ∅
  end.

(** *** The shape of [McpConfig]

    The structure that the interfaces [McpConfig] and [McpServerConfig]
    of [src/types/mcp.ts] describe, as a test on a JSON value. *)

Fixpoint field (k : string) (props : list (string * Value)) : option Value :=
  match props with
  | [] => None
  | (k', v) :: props' =>
      match field k props' with
      | Some v' => Some v'
      | None => if String.eqb k k' then Some v else None
      end
  end.

Definition isString (v : Value) : bool :=
  match v with Str _ => true | _ => false end.
Definition isNumber (v : Value) : bool :=
  match v with Num _ => true | _ => false end.
Definition isStringArray (v : Value) : bool :=
  match v with Arr items => forallb isString items | _ => false end.
Definition isStringRecord (v : Value) : bool :=
  match v with Obj props => forallb (λ p, isString p.2) props | _ => false end.
Definition optional (test : Value → bool) (v : option Value) : bool :=
  match v with Some v => test v | None => true end.

Definition isMcpServerConfig (v : Value) : bool :=
  match v with
  | Obj props =>
      match field "command" props with
      | Some c => isString c
      | None => false
      end
      && optional isStringArray (field "args" props)
      && optional isStringRecord (field "env" props)
      && optional isNumber (field "timeout" props)
      && optional isString (field "url" props)
      && optional isStringRecord (field "headers" props)
  | _ => false
  end.

Definition isMcpConfig (v : Value) : bool :=
  match v with
  | Obj props =>
      match field "mcpServers" props with
      | Some (Obj servers) => forallb (λ p, isMcpServerConfig p.2) servers
      | _ => false
      end
  | _ => false
  end.

End McpConfigLoader.

(** ** The server manager ([src/services/mcp.ts]) *)

Module McpServerManager.

(** The fields [this.servers] and [this.tools] of the class, and the
    console of the process. *)
Record Manager := {
  this_servers : list (string * McpServerInstance);
  this_tools : list (string * McpTool);
  console : Console;
}.

Definition warn (text : string) (this : Manager) : Manager :=
  {| this_servers := this_servers this; this_tools := this_tools this;
     console := console this ++ [ConsoleWarn text] |}.
Definition set_servers (m : list (string * McpServerInstance)) (this : Manager) :=
  {| this_servers := m; this_tools := this_tools this; console := console this |}.
Definition set_toolIndex (m : list (string * McpTool)) (this : Manager) :=
  {| this_servers := this_servers this; this_tools := m; console := console this |}.

(** [new Client(...)]: the client made during the connection attempt
    for the entry of the given name. *)
Definition Sdk := string → Client.

(** The order in which tasks started together settle: a rearrangement
    of the tasks, whatever they are. *)
Record Schedule := {
  settle : ∀ {A : Type}, list A → list A;
  settle_perm : ∀ (A : Type) (l : list A), Permutation (settle l) l;
}.

(** The name under which a discovered tool is registered. *)
Definition namespaced (name toolName : string) : string :=
  name +:+ "__" +:+ toolName.

(** The record that [connectServer] makes of one discovered tool. *)
Definition registered (name : string) (tool : ProviderTool) : McpTool :=
  {| tool_name := namespaced name (pt_name tool);
     originalName := pt_name tool;
     description := default "" (pt_description tool);
     inputSchema := pt_inputSchema tool;
     tool_serverName := name |}.

(** The value of [instance.error] set in the [catch] block. *)
Definition attachedError (name : string) (error : Error) : McpServerError :=
  {| err_code := MCP_ERROR_CODES.CONNECT_TIMEOUT;
     err_message := message error;
     err_serverName := name;
     err_configPath := "";
     err_details := Some error |}.

(** [new StdioClientTransport({command, args, env})] *)
Definition transportFor (config : McpServerConfig) : StdioClientTransport :=
  {| tr_command := command config; tr_args := args config; tr_env := env config |}.

(** How a call of [connectServer] ends: it returns the instance, or it
    throws, leaving the instance it had built behind. *)
Inductive ConnectOutcome :=
| Returned (instance : McpServerInstance)
| Threw (error : Error) (instance : McpServerInstance).

(** The [try] and [catch] blocks act on the local object [instance]. *)
Definition connectServer (sdk : Sdk) (name : string) (config : McpServerConfig)
    : ConnectOutcome :=
  let client := sdk name in
  let instance :=
    {| name := name; config := config; client := client; state := CREATED;
       tools := []; source := global; error := None |} in
  let attempt : M McpServerInstance unit :=
    try_catch
      (modify (set_state CONNECTING);;
       let transport := transportFor config in
       lift (connect client transport);;
       modify (set_state INITIALIZED);;
       toolsResponse ← lift (listTools client);
       let tools := default [] (resp_tools toolsResponse) in
       modify (set_tools (map (registered name) tools));;
       modify (set_state OPERATING))
      (λ error,
         modify (set_state FAILED);;
         modify (set_error (attachedError name error));;
         throw error) in
  match attempt instance with
  | (Normal _, instance) => Returned instance
  | (Throw error, instance) => Threw error instance
  end.

(** The two shapes an instance can have when [connectServer] ends. *)
Definition operatingInstance (sdk : Sdk) (name : string)
    (config : McpServerConfig) (response : ListToolsResponse) : McpServerInstance :=
  {| name := name; config := config; client := sdk name; state := OPERATING;
     tools := map (registered name) (default [] (resp_tools response));
     source := global; error := None |}.
Definition failedInstance (sdk : Sdk) (name : string)
    (config : McpServerConfig) (e : Error) : McpServerInstance :=
  {| name := name; config := config; client := sdk name; state := FAILED;
     tools := []; source := global; error := Some (attachedError name e) |}.

(** Whether the connection attempt for an entry throws. *)
Definition connectFails (sdk : Sdk) (entry : string * McpServerConfig) : bool :=
  match connectServer sdk entry.1 entry.2 with
  | Returned _ => false
  | Threw _ _ => true
  end.

(** [await this.connectServer(name, serverConfig)] *)
Definition awaitConnect {S} (o : ConnectOutcome) : M S McpServerInstance :=
  match o with
  | Returned instance => mret instance
  | Threw error _ => throw error
  end.

(** The state of one call of [loadFromConfig]: the manager and the two
    local arrays the callbacks push to. *)
Record Loading := {
  this : Manager;
  servers : list McpServerInstance;
  errors : list McpServerError;
}.

Definition on_this (f : Manager → Manager) (l : Loading) : Loading :=
  {| this := f (this l); servers := servers l; errors := errors l |}.
Definition push_server (i : McpServerInstance) (l : Loading) : Loading :=
  {| this := this l; servers := servers l ++ [i]; errors := errors l |}.
Definition push_error (e : McpServerError) (l : Loading) : Loading :=
  {| this := this l; servers := servers l; errors := errors l ++ [e] |}.

(** The object [serverError] built in the [catch] block of a callback. *)
Definition serverErrorOf (config : MergedConfig) (name : string)
    (error : Error) : McpServerError :=
  {| err_code := default MCP_ERROR_CODES.SPAWN_FAILED (code error);
     err_message := message error;
     err_serverName := name;
     err_configPath :=
       if decide (merged_sources config !! name = Some project)
       then ".yolo/mcp.json"
       else "~/.config/yolo-cli/mcp.json";
     err_details := Some error |}.

Definition startFailure (name : string) (serverError : McpServerError) : string :=
  "✗ MCP server '" +:+ name +:+ "' failed to start: " +:+ err_message serverError.

(** The callback mapped over [Object.entries(config.mcpServers)]. *)
Definition loadEntry (sdk : Sdk) (config : MergedConfig)
    (entry : string * McpServerConfig) : M Loading unit :=
  let '(name, serverConfig) := entry in
  try_catch
    (let source := default global (merged_sources config !! name) in
     instance ← awaitConnect (connectServer sdk name serverConfig);
     let instance := set_source source instance in
     modify (push_server instance);;
     modify (on_this (λ this,
               set_servers (JsMap.set name instance (this_servers this)) this)))
    (λ error,
       let serverError := serverErrorOf config name error in
       modify (push_error serverError);;
       modify (on_this (warn (startFailure name serverError)))).

(** What one settled callback leaves in the arrays [servers] and
    [errors] and in the manager. *)
Definition loadedInstance (sdk : Sdk) (config : MergedConfig)
    (entry : string * McpServerConfig) : option McpServerInstance :=
  match connectServer sdk entry.1 entry.2 with
  | Returned instance =>
      Some (set_source (default global (merged_sources config !! entry.1)) instance)
  | Threw _ _ => None
  end.
Definition loadError (sdk : Sdk) (config : MergedConfig)
    (entry : string * McpServerConfig) : option McpServerError :=
  match connectServer sdk entry.1 entry.2 with
  | Returned _ => None
  | Threw error _ => Some (serverErrorOf config entry.1 error)
  end.
Definition afterEntry (sdk : Sdk) (config : MergedConfig) (this : Manager)
    (entry : string * McpServerConfig) : Manager :=
  match connectServer sdk entry.1 entry.2 with
  | Returned instance =>
      set_servers
        (JsMap.set entry.1
           (set_source (default global (merged_sources config !! entry.1)) instance)
           (this_servers this)) this
  | Threw error _ =>
      warn (startFailure entry.1 (serverErrorOf config entry.1 error)) this
  end.

(** The tools of one operating server, registered in the index. *)
Definition registerTools (index : list (string * McpTool)) (ts : list McpTool)
    : list (string * McpTool) :=
  foldl (λ index tool, JsMap.set (tool_name tool) tool index) index ts.

(** One turn of the loop over [this.servers.values()]; [found] is the
    local array [tools]. *)
Definition collectTools (acc : list McpTool * list (string * McpTool))
    (server : McpServerInstance) : list McpTool * list (string * McpTool) :=
  let '(found, index) := acc in
  if decide (state server = OPERATING)
  then (found ++ tools server, registerTools index (tools server))
  else (found, index).

Definition getTools : M Manager (list McpTool) := λ this,
  let '(found, index) :=
    foldl collectTools ([], this_tools this) (JsMap.values (this_servers this)) in
  (Normal found, set_toolIndex index this).

Definition failure (errorCode text toolName : string) (args : Value)
    (details : option Error) : ToolResult :=
  {| success := false;
     content := None;
     tr_error := Some {| te_code := errorCode; te_message := text;
                         te_toolName := toolName; te_arguments := args;
                         te_details := details |};
     metadata := None |}.

Definition callTool (toolName : string) (args : Value) : M Manager ToolResult :=
  let separatorIndex := indexOf toolName "__" in
  if separatorIndex =? -1 then
    mret (failure MCP_ERROR_CODES.TOOL_NOT_FOUND
            ("Invalid tool name format: " +:+ toolName +:+
             ". Expected format: servername__toolname")
            toolName args None)
  else
    let serverName := slice toolName 0 (Some separatorIndex) in
    let originalToolName := slice toolName (separatorIndex + 2) None in
    this ← getState;
    match JsMap.get serverName (this_servers this) with
    | None =>
        mret (failure MCP_ERROR_CODES.TOOL_NOT_FOUND
                ("Server not found: " +:+ serverName) toolName args None)
    | Some server =>
        if decide (state server ≠ OPERATING) then
          mret (failure MCP_ERROR_CODES.SERVER_CRASHED
                  ("Server '" +:+ serverName +:+ "' is not operating (state: "
                   +:+ stateValue (state server) +:+ ")")
                  toolName args None)
        else
          try_catch
            (response ← lift (client_callTool (client server) originalToolName args);
             mret {| success := true;
                     content := Some (resp_content response);
                     tr_error := None;
                     metadata := Some {| md_serverName := serverName;
                                         md_toolName := originalToolName |} |})
            (λ error,
               mret (failure MCP_ERROR_CODES.TOOL_EXECUTION_FAILED
                       (message error) toolName args (Some error)))
    end.

Definition getServerStatus (name : string) (this : Manager)
    : option McpServerInstance :=
  JsMap.get name (this_servers this).

Definition cleanupFailure (name : string) (error : Error) : string :=
  "Warning: Failed to clean up MCP server '" +:+ name +:+ "': " +:+ message error.

(** The task started for one entry of [this.servers.entries()]:
    [server.state = 'closed'] writes to the instance held under [name]. *)
Definition closeServer (entry : string * McpServerInstance) : M Manager unit :=
  let '(name, server) := entry in
  try_catch
    (lift (close (client server));;
     modify (λ this,
               set_servers (JsMap.set name (set_state CLOSED server)
                                      (this_servers this)) this))
    (λ error, modify (warn (cleanupFailure name error))).

(** Whether closing the connection of an entry throws. *)
Definition closeFails (entry : string * McpServerInstance) : bool :=
  match close (client entry.2) with
  | Normal _ => false
  | Throw _ => true
  end.

(** The warning, if any, that closing one entry prints. *)
Definition closeWarning (entry : string * McpServerInstance) : option LogEntry :=
  match close (client entry.2) with
  | Normal _ => None
  | Throw error => Some (ConsoleWarn (cleanupFailure entry.1 error))
  end.

Definition cleanup (sched : Schedule) : M Manager unit :=
  this ← getState;
  forEach closeServer (settle sched (JsMap.entries (this_servers this)));;
  modify (λ this, set_servers (JsMap.clear (this_servers this)) this);;
  modify (λ this, set_toolIndex (JsMap.clear (this_tools this)) this).

(** The callbacks run to their end in the order in which the
    connection attempts settle; the method then collects the tools. *)
Definition loadFromConfig (sdk : Sdk) (sched : Schedule) (config : MergedConfig)
    : M Manager LoadResult := λ this0,
  let start := {| this := this0; servers := []; errors := [] |} in
  let loadPromises :=
    forEach (loadEntry sdk config)
            (settle sched (map_to_list (merged_mcpServers config))) in
  match loadPromises start with
  | (Normal _, l) =>
      (found ← getTools;
       mret {| lr_servers := servers l; lr_errors := errors l;
               toolCount := length found |}) (this l)
  | (Throw error, l) => (Throw error, this l)
  end.

End McpServerManager.

(** ** Sample providers, schedules and environments *)

Module Samples.
Import McpConfigLoader McpServerManager.

Definition launch (cmd : string) : McpServerConfig :=
  {| command := cmd; args := Some []; env := None; timeout := None;
     url := None; headers := None |}.

(** A provider that starts, lists [ts] and answers every call. *)
Definition healthy (ts : list ProviderTool) : Client :=
  {| connect := λ _, Normal tt;
     listTools := Normal {| resp_tools := Some ts |};
     client_callTool := λ _ _, Normal {| resp_content := [Str "done"] |};
     close := Normal tt |}.

(** A provider whose spawn or handshake fails with [e]. *)
Definition unreachable (e : Error) : Client :=
  {| connect := λ _, Throw e;
     listTools := Throw e;
     client_callTool := λ _ _, Throw e;
     close := Normal tt |}.

(** A provider that starts and then fails to list its tools. *)
Definition mute (e : Error) : Client :=
  {| connect := λ _, Normal tt;
     listTools := Throw e;
     client_callTool := λ _ _, Throw e;
     close := Throw e |}.

Definition spawnENOENT : Error :=
  {| message := "spawn nonexistent-server ENOENT"; code := Some "ENOENT" |}.
Definition requestTimedOut : Error :=
  {| message := "Request timed out"; code := Some "-32001" |}.
Definition methodNotFound : Error :=
  {| message := "Method not found"; code := None |}.

Definition tool (n : string) : ProviderTool :=
  {| pt_name := n; pt_description := None; pt_inputSchema := Obj [] |}.

Definition inOrder : Schedule :=
  {| settle := λ A l, l; settle_perm := λ A l, Permutation_refl l |}.
Definition lastFirst : Schedule :=
  {| settle := λ A l, reverse l; settle_perm := λ A l, reverse_Permutation l |}.

Definition freshManager : Manager :=
  {| this_servers := []; this_tools := []; console := [] |}.

(** An instance as [loadFromConfig] registers it. *)
Definition running (n : string) (c : Client) (ts : list ProviderTool)
    : McpServerInstance :=
  {| name := n; config := launch "npx"; client := c; state := OPERATING;
     tools := map (registered n) ts; source := global; error := None |}.

(** A machine whose only configuration file is the project one. *)
Definition projectOnly (content : FileContent) : Env :=
  {| homedir := "/home/u"; platform := "linux"; cwd := "/work";
     path_join := String.concat "/";
     readFile := λ path,
       if String.eqb path "/work/.yolo/mcp.json" then Normal content
       else Throw {| message := "ENOENT: no such file or directory";
                     code := Some "ENOENT" |} |}.

End Samples.

(** ** The manager in use: what a load leaves and which states arise *)

Module Lifecycle.
Import McpServerManager.

(** The registry entry that one settled callback writes, if any. *)
Definition registeredEntry (sdk : Sdk) (config : MergedConfig)
    (entry : string * McpServerConfig) : option (string * McpServerInstance) :=
  match loadedInstance sdk config entry with
  | Some instance => Some (entry.1, instance)
  | None => None
  end.

(** The line that [console.warn] prints for a recorded error. *)
Definition startWarning (serverError : McpServerError) : LogEntry :=
  ConsoleWarn (startFailure (err_serverName serverError) serverError).

(** The states of a manager that completed calls of its methods lead
    to, from [new McpServerManager()]. *)
Inductive Reachable : Manager → Prop :=
| reach_new (printed : Console) :
    Reachable {| this_servers := []; this_tools := []; console := printed |}
| reach_loadFromConfig sdk sched config this r this' :
    Reachable this →
    loadFromConfig sdk sched config this = (r, this') →
    Reachable this'
| reach_getTools this r this' :
    Reachable this → getTools this = (r, this') → Reachable this'
| reach_callTool toolName args this r this' :
    Reachable this → callTool toolName args this = (r, this') → Reachable this'
| reach_cleanup sched this r this' :
    Reachable this → cleanup sched this = (r, this') → Reachable this'.

(** Every registered instance is held under its own name, is
    [operating], and has tools named after it. *)
Definition soundInstance (entry : string * McpServerInstance) : Prop :=
  name entry.2 = entry.1 ∧
  state entry.2 = OPERATING ∧
  Forall (λ t, ∃ provided, t = registered entry.1 provided) (tools entry.2).

Definition soundRegistry (this : Manager) : Prop :=
  Forall soundInstance (this_servers this).

End Lifecycle.

(** ** The notices of [mergeConfigs] *)

Module MergeNotices.
Import McpConfigLoader.

(** The text of the notice for a name defined in both configurations. *)
Definition overrideNotice (name : string) : string :=
  "MCP server '" +:+ name +:+
  "' defined in both global and project configs - using project configuration".

(** The prototype of [merged.mcpServers] when the second loop starts:
    the entry of the global configuration called [__proto__], if it has
    one. *)
Definition prototypeAfter (G : option McpConfig) : Prototype :=
  match entriesOf G !! "__proto__" with
  | Some config => EntryAsPrototype config
  | None => ObjectPrototype
  end.

(** What [merged.mcpServers[name]] gives when the second loop starts. *)
Definition readAfter (G : option McpConfig) (name : string) : Read :=
  match delete "__proto__" (entriesOf G) !! name with
  | Some config => EntryValue config
  | None => inheritedFrom (prototypeAfter G) name
  end.

(** The names of the project configuration, in the order of its
    entries, under which that read is truthy. *)
Definition announced (G P : option McpConfig) : list string :=
  filter (λ name, Is_true (truthy (readAfter G name)))
         (map_to_list (entriesOf P)).*1.

End MergeNotices.

(** ** The tool executor ([src/services/tools.ts]) and the registration
    of MCP tools by the chat interface ([components/ChatInterface.tsx],
    kept as [src/unnamed/part_011]) *)

Module ToolExecutor.

(** [ToolExecutionResult], [ToolDefinition] and [Tool] of
    [src/types/tools.ts]; a definition is given by the three fields of
    its [function]. The executor of a tool acts on a world [W]. *)
Record ToolExecutionResult := {
  exec_success : bool;
  exec_output : string;
  exec_error : option string;
}.

Record ToolDefinition := {
  fn_name : string;
  fn_description : string;
  fn_parameters : Value;
}.

Record Tool (W : Type) := {
  definition : ToolDefinition;
  executor : Value → M W ToolExecutionResult;
}.
Arguments definition {W} _.
Arguments executor {W} _.

(** The field [tools] of the class is a [Map] from names to tools. *)
Definition registerTools {W} (ts : list (Tool W))
    (tools : list (string * Tool W)) : list (string * Tool W) :=
  foldl (λ tools tool, JsMap.set (fn_name (definition tool)) tool tools) tools ts.

(** The loop of the constructor. *)
Definition construct {W} (ts : list (Tool W)) : list (string * Tool W) :=
  foldl (λ tools tool, JsMap.set (fn_name (definition tool)) tool tools) [] ts.

Definition getToolDefinitions {W} (tools : list (string * Tool W))
    : list ToolDefinition :=
  map definition (JsMap.values tools).

Definition hasTool {W} (name : string) (tools : list (string * Tool W)) : bool :=
  match JsMap.get name tools with
  | Some _ => true
  | None => false
  end.

Definition getToolNames {W} (tools : list (string * Tool W)) : list string :=
  tools.*1.

(** The names of [ALL_TOOLS], each as its file defines it. *)
Definition builtinNames : list string :=
  [ "read_file"; "write_file"; "bash"; "glob"; "grep"; "str_replace_file";
    "think"; "set_todo_list" ].

End ToolExecutor.

Module ChatInterface.
Import McpServerManager ToolExecutor.

(** The line feed of ['\n']. *)
Definition newline : string := String (ascii_of_nat 10) EmptyString.

Section ToString.

(** [Number.prototype.toString] is left to the engine. *)
Variable numberToString : Z → string.

(** [String(v)] for a value that comes from JSON. *)
Fixpoint toString (v : Value) : string :=
  match v with
  | Null => "null"
  | Bool true => "true"
  | Bool false => "false"
  | Num n => numberToString n
  | Str s => s
  | Arr items =>
      String.concat ","
        (map (λ item, match item with Null => "" | _ => toString item end) items)
  | Obj _ => "[object Object]"
  end.

(** [array.join(sep)]: [undefined] and [null] give the empty string. *)
Definition join (sep : string) (items : list (option Value)) : string :=
  String.concat sep
    (map (λ item, match item with
                  | None | Some Null => ""
                  | Some v => toString v
                  end) items).

(** [c => (c.type === 'text' ? c.text : '')]; [None] is [undefined],
    and reading a property of [null] throws a [TypeError]. *)
Definition textOf (c : Value) : Completion (option Value) :=
  match c with
  | Null =>
      Throw {| message := "Cannot read properties of null (reading 'type')";
               code := None |}
  | Obj props =>
      match McpConfigLoader.field "type" props with
      | Some (Str kind) =>
          if String.eqb kind "text"
          then Normal (McpConfigLoader.field "text" props)
          else Normal (Some (Str ""))
      | _ => Normal (Some (Str ""))
      end
  | _ => Normal (Some (Str ""))
  end.

(** [array.map(f)] for an [f] that may throw. *)
Fixpoint mapArray {A B} (f : A → Completion B) (l : list A) : Completion (list B) :=
  match l with
  | [] => Normal []
  | x :: l' =>
      match f x with
      | Normal y =>
          match mapArray f l' with
          | Normal ys => Normal (y :: ys)
          | Throw e => Throw e
          end
      | Throw e => Throw e
      end
  end.

(** The [executor] of the tool made for the MCP tool called [toolName]. *)
Definition mcpExecutor (toolName : string) (args : Value)
    : M Manager ToolExecutionResult :=
  result ← callTool toolName args;
  if negb (success result) then
    mret {| exec_success := false;
            exec_output := "";
            exec_error :=
              Some (default "Tool execution failed" (te_message <$> tr_error result)) |}
  else
    output ← match content result with
              | Some items =>
                  texts ← lift (mapArray textOf items);
                  mret (join newline texts)
              | None => mret ""
              end;
    mret {| exec_success := true; exec_output := output; exec_error := None |}.

(** One element of [toolsFormatted]. *)
Definition formatTool (mcpTool : McpTool) : Tool Manager :=
  {| definition := {| fn_name := tool_name mcpTool;
                      fn_description := description mcpTool;
                      fn_parameters := inputSchema mcpTool |};
     executor := mcpExecutor (tool_name mcpTool) |}.

(** "Register MCP tools if available": [tools] is the map of the
    global [toolExecutor]. *)
Definition registerMcpTools (tools : list (string * Tool Manager))
    : M Manager (list (string * Tool Manager)) :=
  mcpTools ← getTools;
  let toolsFormatted := map formatTool mcpTools in
  mret (registerTools toolsFormatted tools).

End ToString.

(** The three kinds of [ToolContent] ([src/types/mcp.ts]) and the
    object each one is on the wire. *)
Inductive ToolContent :=
| TextContent (text : string)
| ImageContent (data mimeType : string)
| EmbeddedResourceContent (uri : string) (mimeType text : option string).

Definition optionalField (k : string) (v : option string)
    : list (string * Value) :=
  match v with
  | Some s => [(k, Str s)]
  | None => []
  end.

Definition wire (c : ToolContent) : Value :=
  match c with
  | TextContent text => Obj [("type", Str "text"); ("text", Str text)]
  | ImageContent data mimeType =>
      Obj [("type", Str "image"); ("data", Str data); ("mimeType", Str mimeType)]
  | EmbeddedResourceContent uri mimeType text =>
      Obj ([("type", Str "resource"); ("uri", Str uri)]
           ++ optionalField "mimeType" mimeType ++ optionalField "text" text)
  end.

(** What the chat shows of one content item. *)
Definition shown (c : ToolContent) : string :=
  match c with
  | TextContent text => text
  | _ => ""
  end.

End ChatInterface.

(** A provider that answers every call with the given content, and a
    manager that holds it under the name [notes]. *)
Module ChatSamples.
Import McpServerManager ChatInterface.

Definition answering (items : list Value) : Client :=
  {| connect := λ _, Normal tt;
     listTools := Normal {| resp_tools := Some [Samples.tool "list"] |};
     client_callTool := λ _ _, Normal {| resp_content := items |};
     close := Normal tt |}.

Definition page : list ToolContent :=
  [ TextContent "first"; ImageContent "aGk=" "image/png";
    EmbeddedResourceContent "file:///n.txt" None (Some "hidden");
    TextContent "last" ].

Definition withNotes : Manager :=
  {| this_servers :=
       [("notes", Samples.running "notes" (answering (map wire page))
                    [Samples.tool "list"])];
     this_tools := [];
     console := [] |}.

Definition decimal (n : Z) : string := "0".

(** A tool of the executor called [n], which answers with its name,
    and the executor as its constructor leaves it: the eight built-in
    tools, each under its name. *)
Definition builtin (n : string) : ToolExecutor.Tool Manager :=
  {| ToolExecutor.definition :=
       {| ToolExecutor.fn_name := n;
          ToolExecutor.fn_description := "built in";
          ToolExecutor.fn_parameters := Obj [] |};
     ToolExecutor.executor := λ _,
       mret {| ToolExecutor.exec_success := true;
               ToolExecutor.exec_output := n;
               ToolExecutor.exec_error := None |} |}.

Definition builtins : list (string * ToolExecutor.Tool Manager) :=
  ToolExecutor.construct (map builtin ToolExecutor.builtinNames).

End ChatSamples.

(** ** The fields of an entry that [connectServer] does not read *)

Module ConnectOptions.
Import McpServerManager.

(** The entry [config] with other [timeout], [url] and [headers]. *)
Definition withOptions (config : McpServerConfig) (t : option Z)
    (u : option string) (h : option (gmap string string)) : McpServerConfig :=
  {| command := command config; args := args config; env := env config;
     timeout := t; url := u; headers := h |}.

Definition set_config (c : McpServerConfig) (i : McpServerInstance) :=
  {| name := name i; config := c; client := client i; state := state i;
     tools := tools i; source := source i; error := error i |}.

(** The outcome [o] with [c] as the [config] that the instance keeps. *)
Definition keeping (c : McpServerConfig) (o : ConnectOutcome) : ConnectOutcome :=
  match o with
  | Returned instance => Returned (set_config c instance)
  | Threw e instance => Threw e (set_config c instance)
  end.

End ConnectOptions.

(** * Properties *)

Import McpConfigLoader McpServerManager.

(** ** Strings *)

Section StringFacts.

Local Arguments String.append _ _ : simpl nomatch.

Lemma indexOfFrom_eq needle s i :
  indexOfFrom needle s i =
  if String.prefix needle s then i
  else match s with
       | EmptyString => -1
       | String _ s' => indexOfFrom needle s' (i + 1)
       end.
Proof. by destruct s. Qed.

Lemma occursIn_eq needle s :
  occursIn needle s =
  String.prefix needle s ||
  match s with
  | EmptyString => false
  | String _ s' => occursIn needle s'
  end.
Proof. by destruct s. Qed.

Lemma indexOfFrom_found needle s i :
  occursIn needle s = true → i ≤ indexOfFrom needle s i.
Proof.
  revert i. induction s as [|c s IH]; intros i;
    rewrite indexOfFrom_eq, occursIn_eq;
    destruct (String.prefix needle _); simpl; try lia; try discriminate.
  intros H. specialize (IH (i + 1) H). lia.
Qed.

Lemma indexOfFrom_absent needle s i :
  occursIn needle s = false → indexOfFrom needle s i = -1.
Proof.
  revert i. induction s as [|c s IH]; intros i;
    rewrite indexOfFrom_eq, occursIn_eq;
    destruct (String.prefix needle _); simpl; try done.
  intros H. by apply IH.
Qed.

Lemma indexOf_absent_iff s needle :
  indexOf s needle = -1 ↔ occursIn needle s = false.
Proof.
  split; [| apply indexOfFrom_absent].
  unfold indexOf. intros H.
  destruct (occursIn needle s) eqn:E; [| done].
  pose proof (indexOfFrom_found needle s 0 E). lia.
Qed.

Lemma substring_0_app s r :
  String.substring 0 (String.length s) (s +:+ r) = s.
Proof.
  induction s as [|c s IH]; simpl.
  - by destruct r.
  - by rewrite IH.
Qed.

Lemma substring_skip_app s r m :
  String.substring (String.length s) m (s +:+ r) = String.substring 0 m r.
Proof. induction s as [|c s IH]; simpl; [done | apply IH]. Qed.

Lemma substring_whole r : String.substring 0 (String.length r) r = r.
Proof. induction r as [|c r IH]; simpl; [done | by rewrite IH]. Qed.

Lemma string_length_app s r :
  String.length (s +:+ r) = (String.length s + String.length r)%nat.
Proof. induction s as [|c s IH]; simpl; [done | by rewrite IH]. Qed.

(** Cutting [s ++ r] at [length s]. *)
Lemma slice_prefix s r :
  slice (s +:+ r) 0 (Some (Z.of_nat (String.length s))) = s.
Proof.
  unfold slice. rewrite string_length_app.
  replace (0 <? 0) with false by done.
  destruct (Z.ltb_spec (Z.of_nat (String.length s)) 0); [lia |].
  rewrite Z.min_l by lia. rewrite Z.min_l by lia.
  rewrite Z.sub_0_r, Nat2Z.id. apply substring_0_app.
Qed.

Lemma slice_suffix s r :
  slice (s +:+ r) (Z.of_nat (String.length s)) None = r.
Proof.
  unfold slice. rewrite string_length_app.
  destruct (Z.ltb_spec (Z.of_nat (String.length s)) 0); [lia |].
  rewrite Z.min_l by lia. rewrite Nat2Z.id, substring_skip_app.
  replace (Z.to_nat _) with (String.length r) by lia.
  apply substring_whole.
Qed.

Lemma app_assoc_string (a b c : string) : (a +:+ b) +:+ c = a +:+ b +:+ c.
Proof. induction a as [|x a IH]; simpl; [done | by rewrite IH]. Qed.

(** The first separator of [s ++ "__" ++ t] is the one that was put
    in, when none occurs in [s] and [s] does not end in an underscore. *)
Lemma indexOfFrom_namespaced s t i :
  occursIn "__" s = false → endsWithUnderscore s = false →
  indexOfFrom "__" (s +:+ "__" +:+ t) i = i + Z.of_nat (String.length s).
Proof.
  revert i. induction s as [|c s IH]; intros i Hocc Hend.
  - simpl. destruct t; simpl; lia.
  - assert (String.prefix "__" (String c s +:+ "__" +:+ t) = false) as Hp.
    { cbn [String.append String.prefix].
      destruct (ascii_dec "_" c) as [<-|Hc]; [| done].
      destruct s as [|c' s]; [discriminate Hend |].
      cbn [String.append String.prefix].
      destruct (ascii_dec "_" c') as [<-|Hc']; [| done].
      rewrite occursIn_eq in Hocc. apply orb_false_elim in Hocc as [Hp _].
      cbn [String.prefix] in Hp.
      destruct (ascii_dec "_" "_"); [| done]. by destruct s. }
    rewrite indexOfFrom_eq, Hp. cbn [String.append]. rewrite IH.
    + simpl String.length. lia.
    + rewrite occursIn_eq in Hocc. by apply orb_false_elim in Hocc as [_ ?].
    + simpl in Hend. destruct s; [done | done].
Qed.

End StringFacts.

(** ** C3: the namespacing round trip *)

(** C3, as stated, fails: the server name [a_] holds no separator, yet
    the first separator of [a___x] starts at index 1, and the split that
    [callTool] makes yields the server [a] and the tool [_x]. *)
Lemma C3_round_trip_fails_on_trailing_underscore :
  let s := "a_" in
  let t := "x" in
  let toolName := namespaced s t in
  let separatorIndex := indexOf toolName "__" in
  indexOf s "__" = -1 ∧
  slice toolName 0 (Some separatorIndex) = "a" ∧
  slice toolName (separatorIndex + 2) None = "_x" ∧
  (slice toolName 0 (Some separatorIndex),
   slice toolName (separatorIndex + 2) None) ≠ (s, t).
Proof. vm_compute. repeat split; congruence. Qed.

(** C3, amended: for every server name [s] that holds no separator and
    does not end in an underscore, and every tool name [t], the name
    [connectServer] builds has a separator, and the split [callTool]
    makes at its first occurrence gives back [s] and [t]. *)
Theorem C3_namespacing_round_trip (s t : string) :
  indexOf s "__" = -1 →
  endsWithUnderscore s = false →
  let toolName := namespaced s t in
  let separatorIndex := indexOf toolName "__" in
  separatorIndex ≠ -1 ∧
  slice toolName 0 (Some separatorIndex) = s ∧
  slice toolName (separatorIndex + 2) None = t.
Proof.
  intros Hsep Hend toolName separatorIndex.
  apply indexOf_absent_iff in Hsep.
  assert (separatorIndex = Z.of_nat (String.length s)) as ->.
  { unfold separatorIndex, toolName, namespaced, indexOf.
    rewrite indexOfFrom_namespaced by done. lia. }
  split; [lia |]. split.
  - apply slice_prefix.
  - unfold toolName, namespaced.
    rewrite <- app_assoc_string.
    replace (Z.of_nat (String.length s) + 2)
      with (Z.of_nat (String.length (s +:+ "__"))).
    + apply slice_suffix.
    + rewrite string_length_app. simpl. lia.
Qed.

Lemma C3_namespacing_round_trip_witness :
  let toolName := namespaced "github" "create_issue" in
  let separatorIndex := indexOf toolName "__" in
  separatorIndex ≠ -1 ∧
  slice toolName 0 (Some separatorIndex) = "github" ∧
  slice toolName (separatorIndex + 2) None = "create_issue".
Proof.
  apply (C3_namespacing_round_trip "github" "create_issue"); reflexivity.
Defined.

(** ** C2: precedence and provenance of [mergeConfigs] *)

Section MergeFacts.

Implicit Types (l : list (string * McpServerConfig)) (merged : Merging).

Lemma setEntry_plain name config src merged :
  plain merged →
  setEntry name config src merged =
  if decide (name = "__proto__")
  then {| properties := properties merged; prototype := EntryAsPrototype config |}
  else {| properties :=
            {| merged_mcpServers :=
                 <[name := config]> (merged_mcpServers (properties merged));
               merged_sources :=
                 <[name := src]> (merged_sources (properties merged)) |};
          prototype := prototype merged |}.
Proof.
  intros [Hs Ht]. unfold setEntry, setServer, setSource. cbv zeta.
  destruct (decide (name = "__proto__")) as [->|Hne].
  - rewrite (decide_True (P := _ ∧ merged_mcpServers _ !! _ = None)) by (by split).
    simpl. by rewrite decide_True by (by split).
  - rewrite (decide_False (P := _ ∧ merged_mcpServers _ !! _ = None))
      by (by intros [? _]).
    simpl. by rewrite decide_False by (by intros [? _]).
Qed.

Lemma setEntry_keeps_plain name config src merged :
  plain merged → plain (setEntry name config src merged).
Proof.
  intros H. rewrite (setEntry_plain _ _ _ _ H). destruct H as [Hs Ht].
  destruct (decide (name = "__proto__")) as [->|Hne]; [done |].
  split; simpl; by rewrite lookup_insert_ne.
Qed.

(** One loop of assignments, name by name. *)
Lemma foldl_setEntry src l merged :
  plain merged → NoDup l.*1 →
  let r := foldl (λ merged '(name, config), setEntry name config src merged)
                 merged l in
  plain r ∧
  prototype r =
    match (list_to_map l : gmap string McpServerConfig) !! "__proto__" with
    | Some config => EntryAsPrototype config
    | None => prototype merged
    end ∧
  ∀ n : string, n ≠ "__proto__" →
    merged_mcpServers (properties r) !! n =
      ((list_to_map l : gmap string McpServerConfig)
         ∪ merged_mcpServers (properties merged)) !! n ∧
    merged_sources (properties r) !! n =
      (((λ _, src) <$> (list_to_map l : gmap string McpServerConfig))
         ∪ merged_sources (properties merged)) !! n.
Proof.
  revert merged. induction l as [|[k c] l IH]; intros merged Hp Hnd; simpl.
  - split; [done |]. split; [done |]. intros n _.
    by rewrite fmap_empty, !(left_id_L ∅ (∪)).
  - apply NoDup_cons in Hnd as [Hk Hnd].
    assert ((list_to_map l : gmap string McpServerConfig) !! k = None) as Hnone
      by (by apply not_elem_of_list_to_map_1).
    destruct (IH (setEntry k c src merged) (setEntry_keeps_plain _ _ _ _ Hp) Hnd)
      as (Hr & Hproto & Hlook).
    split; [exact Hr |]. rewrite Hproto. clear Hproto Hr IH.
    pose proof (setEntry_plain k c src merged Hp) as Hset.
    destruct (decide (k = "__proto__")) as [->|Hne].
    + rewrite Hnone, lookup_insert_eq. split; [by rewrite Hset |]. intros n Hn.
      destruct (Hlook n Hn) as [-> ->]. rewrite Hset. simpl.
      rewrite !lookup_union, lookup_fmap, lookup_fmap, !lookup_insert_ne by done.
      done.
    + rewrite lookup_insert_ne by done. split; [by rewrite Hset |]. intros n Hn.
      destruct (Hlook n Hn) as [-> ->]. rewrite Hset. simpl.
      rewrite !lookup_union, lookup_fmap, lookup_fmap.
      destruct (decide (k = n)) as [<-|Hkn].
      * rewrite Hnone, !lookup_insert_eq. simpl.
        by destruct (merged_mcpServers _ !! k), (merged_sources _ !! k).
      * by rewrite !lookup_insert_ne by done.
Qed.

Lemma foldl_mergeProjectEntry_fst l merged console :
  (foldl mergeProjectEntry (merged, console) l).1 =
  foldl (λ merged '(name, config), setEntry name config project merged) merged l.
Proof.
  revert merged console. induction l as [|[name config] l IH];
    intros merged console; simpl; [done |].
  apply IH.
Qed.

(** The merge as one equation on maps: the project entries laid over
    the global ones, without the name [__proto__]. *)
Lemma mergeConfigs_union (G P : option McpConfig) (console : Console) :
  ∃ (merged : MergedConfig) console',
    mergeConfigs G P console = (Normal merged, console') ∧
    merged_mcpServers merged = delete "__proto__" (entriesOf P ∪ entriesOf G) ∧
    merged_sources merged =
      delete "__proto__"
        (((λ _, project) <$> entriesOf P) ∪ ((λ _, global) <$> entriesOf G)).
Proof.
  unfold mergeConfigs.
  set (m0 := {| properties := {| merged_mcpServers := ∅; merged_sources := ∅ |};
                prototype := ObjectPrototype |}).
  set (m1 := match G with Some g => _ | None => m0 end).
  assert (plain m0) as Hp0 by done.
  assert (plain m1 ∧
          ∀ n : string, n ≠ "__proto__" →
            merged_mcpServers (properties m1) !! n = entriesOf G !! n ∧
            merged_sources (properties m1) !! n =
              ((λ _, global) <$> entriesOf G) !! n) as [Hp1 H1].
  { destruct G as [g|]; subst m1; simpl.
    - destruct (foldl_setEntry global (map_to_list (mcpServers g)) m0 Hp0
                  (NoDup_fst_map_to_list _)) as (Hp & _ & Hl).
      split; [exact Hp |]. intros n Hn. destruct (Hl n Hn) as [-> ->].
      unfold m0. simpl. by rewrite list_to_map_to_list, !(right_id_L ∅ (∪)).
    - split; [done |]. intros n _. by rewrite fmap_empty. }
  clearbody m1.
  assert (∃ m2 console',
            match P with
            | Some p => foldl mergeProjectEntry (m1, console)
                          (map_to_list (mcpServers p))
            | None => (m1, console)
            end = (m2, console') ∧
            plain m2 ∧
            ∀ n : string, n ≠ "__proto__" →
              merged_mcpServers (properties m2) !! n =
                (entriesOf P ∪ entriesOf G) !! n ∧
              merged_sources (properties m2) !! n =
                (((λ _, project) <$> entriesOf P)
                   ∪ ((λ _, global) <$> entriesOf G)) !! n)
    as (m2 & console' & -> & Hp2 & H2).
  { destruct P as [p|]; simpl.
    - destruct (foldl mergeProjectEntry (m1, console) (map_to_list (mcpServers p)))
        as [m2 console'] eqn:E.
      exists m2, console'. split; [done |].
      pose proof (foldl_mergeProjectEntry_fst (map_to_list (mcpServers p)) m1 console)
        as F.
      rewrite E in F. simpl in F. subst m2.
      destruct (foldl_setEntry project (map_to_list (mcpServers p)) m1 Hp1
                  (NoDup_fst_map_to_list _)) as (Hp & _ & Hl).
      split; [exact Hp |]. intros n Hn. destruct (Hl n Hn) as [-> ->].
      rewrite list_to_map_to_list, !lookup_union.
      by destruct (H1 n Hn) as [-> ->].
    - exists m1, console. split; [done |]. split; [done |]. intros n Hn.
      rewrite fmap_empty, !(left_id_L ∅ (∪)). by apply H1. }
  exists (properties m2), console'. split; [done |].
  destruct Hp2 as [Hs Ht].
  split; apply map_eq; intros n;
    (destruct (decide (n = "__proto__")) as [->|Hn];
     [by rewrite lookup_delete_eq
     | rewrite lookup_delete_ne by done; by apply H2]).
Qed.

End MergeFacts.

(** C2: a server that the project configuration (or the global one)
    calls [__proto__] is lost by [mergeConfigs]. The assignment
    [merged.mcpServers['__proto__'] = config] makes the entry the
    prototype of [merged.mcpServers] and the assignment
    [merged.sources['__proto__'] = 'project'] does nothing, so the name
    has neither an entry nor a tag in the result; the read of the test
    gives [Object.prototype], so the notice is printed although no
    global configuration exists. The claim, which has every name of the
    project configuration in the result with the tag [project], fails
    on this input. *)
Theorem C2_mergeConfigs_loses_the_entry_called_proto :
  let entry := Samples.launch "npx" in
  let P := {| mcpServers := {[ "__proto__" := entry ]} |} in
  entriesOf (Some P) !! "__proto__" = Some entry ∧
  mergeConfigs None (Some P) [] =
    (Normal {| merged_mcpServers := ∅; merged_sources := ∅ |},
     [ConsoleInfo (MergeNotices.overrideNotice "__proto__")]).
Proof. split; reflexivity. Qed.

(** ** C7 and C6: the outcomes of [connectServer] *)

Section ConnectFacts.

Implicit Types (sdk : Sdk) (config : McpServerConfig) (e : Error).

Lemma connectServer_spawn_fails sdk name config e :
  connect (sdk name) (transportFor config) = Throw e →
  connectServer sdk name config = Threw e (failedInstance sdk name config e).
Proof.
  intros H. unfold connectServer, try_catch, mbind, M_bind, lift, modify, throw.
  simpl. by rewrite H.
Qed.

Lemma connectServer_listing_fails sdk name config u e :
  connect (sdk name) (transportFor config) = Normal u →
  listTools (sdk name) = Throw e →
  connectServer sdk name config = Threw e (failedInstance sdk name config e).
Proof.
  intros H1 H2. unfold connectServer, try_catch, mbind, M_bind, lift, modify, throw.
  simpl. by rewrite H1, H2.
Qed.

Lemma connectServer_succeeds sdk name config u response :
  connect (sdk name) (transportFor config) = Normal u →
  listTools (sdk name) = Normal response →
  connectServer sdk name config =
    Returned (operatingInstance sdk name config response).
Proof.
  intros H1 H2. unfold connectServer, try_catch, mbind, M_bind, lift, modify, throw.
  simpl. by rewrite H1, H2.
Qed.

(** Every attempt ends in one of the two ways. *)
Lemma connectServer_outcome sdk name config :
  match connectServer sdk name config with
  | Returned instance =>
      ∃ response,
        listTools (sdk name) = Normal response ∧
        instance = operatingInstance sdk name config response
  | Threw e instance =>
      instance = failedInstance sdk name config e ∧
      (connect (sdk name) (transportFor config) = Throw e ∨
       listTools (sdk name) = Throw e)
  end.
Proof.
  destruct (connect (sdk name) (transportFor config)) as [u|e] eqn:H1.
  - destruct (listTools (sdk name)) as [response|e] eqn:H2.
    + rewrite (connectServer_succeeds _ _ _ u response H1 H2). eauto.
    + rewrite (connectServer_listing_fails _ _ _ u e H1 H2). eauto.
  - rewrite (connectServer_spawn_fails _ _ _ e H1). eauto.
Qed.

End ConnectFacts.

(** C7: for every name and configuration, a connection attempt ends in
    one of two ways. Either [connectServer] returns, the instance is
    [operating] and its tools are all the tools the provider listed, each
    under its namespaced name; or it throws, the instance is [failed] and
    its tool list is empty. *)
Theorem C7_no_partial_tool_registration
    (sdk : Sdk) (name : string) (config : McpServerConfig) :
  match connectServer sdk name config with
  | Returned instance =>
      state instance = OPERATING ∧
      ∃ response,
        listTools (sdk name) = Normal response ∧
        tools instance = map (registered name) (default [] (resp_tools response)) ∧
        (tool_name <$> tools instance) =
          (namespaced name ∘ pt_name <$> default [] (resp_tools response))
  | Threw _ instance =>
      state instance = FAILED ∧ tools instance = []
  end.
Proof.
  pose proof (connectServer_outcome sdk name config) as H.
  destruct (connectServer sdk name config) as [instance|e instance].
  - destruct H as (response & Hl & ->). simpl. split; [done |].
    exists response. split; [done |]. split; [done |].
    by rewrite <- list_fmap_compose.
  - by destruct H as [-> _].
Qed.

(** ** C1: every connection attempt is accounted for *)

Section LoadFacts.

Variables (sdk : Sdk) (config : MergedConfig).

Implicit Types (entry : string * McpServerConfig)
  (l : list (string * McpServerConfig)) (L : Loading).

Lemma loadEntry_run entry L :
  loadEntry sdk config entry L =
  (Normal tt,
   {| this := afterEntry sdk config (this L) entry;
      servers := servers L ++ option_list (loadedInstance sdk config entry);
      errors := errors L ++ option_list (loadError sdk config entry) |}).
Proof.
  destruct entry as [n c], L as [t ss es].
  unfold loadEntry, loadedInstance, loadError, afterEntry, try_catch,
    mbind, M_bind, awaitConnect, modify, throw, mret, M_ret. simpl.
  destruct (connectServer sdk n c); simpl; by rewrite ?app_nil_r.
Qed.

Lemma forEach_loadEntry l L :
  forEach (loadEntry sdk config) l L =
  (Normal tt,
   {| this := foldl (afterEntry sdk config) (this L) l;
      servers := servers L ++ omap (loadedInstance sdk config) l;
      errors := errors L ++ omap (loadError sdk config) l |}).
Proof.
  revert L. induction l as [|entry l IH]; intros L; simpl.
  - destruct L. by rewrite !app_nil_r.
  - rewrite loadEntry_run, IH. simpl. f_equal. f_equal.
    + rewrite <- app_assoc. f_equal.
      by destruct (loadedInstance sdk config entry).
    + rewrite <- app_assoc. f_equal.
      by destruct (loadError sdk config entry).
Qed.

Lemma connectFails_true entry :
  connectFails sdk entry = true →
  ∃ e, loadError sdk config entry = Some (serverErrorOf config entry.1 e) ∧
       loadedInstance sdk config entry = None.
Proof.
  unfold connectFails, loadError, loadedInstance.
  destruct (connectServer sdk entry.1 entry.2); [done | eauto].
Qed.

Lemma connectFails_false entry :
  connectFails sdk entry = false →
  ∃ instance, loadedInstance sdk config entry = Some instance ∧
              name instance = entry.1 ∧
              loadError sdk config entry = None.
Proof.
  unfold connectFails, loadError, loadedInstance.
  pose proof (connectServer_outcome sdk entry.1 entry.2) as H.
  destruct (connectServer sdk entry.1 entry.2); [| done].
  destruct H as (response & _ & ->). eauto.
Qed.

Lemma loadError_names l :
  err_serverName <$> omap (loadError sdk config) l =
  (filter (λ entry, connectFails sdk entry) l).*1.
Proof.
  induction l as [|entry l IH]; [done |].
  rewrite filter_cons. csimpl.
  destruct (connectFails sdk entry) eqn:F.
  - destruct (connectFails_true entry F) as (e & -> & _).
    rewrite decide_True by done. csimpl. by rewrite IH.
  - destruct (connectFails_false entry F) as (i & _ & _ & ->).
    by rewrite decide_False by (by intros []).
Qed.

Lemma loadedInstance_names l :
  name <$> omap (loadedInstance sdk config) l =
  (filter (λ entry, ¬ connectFails sdk entry) l).*1.
Proof.
  induction l as [|entry l IH]; [done |].
  rewrite filter_cons. csimpl.
  destruct (connectFails sdk entry) eqn:F.
  - destruct (connectFails_true entry F) as (e & _ & ->).
    rewrite decide_False; [done |]. intros H. by apply H.
  - destruct (connectFails_false entry F) as (i & -> & Hn & _).
    rewrite decide_True by (by intros []). csimpl. by rewrite IH, Hn.
Qed.

End LoadFacts.

Lemma getTools_returns (this : Manager) :
  ∃ found index,
    foldl collectTools ([], this_tools this) (JsMap.values (this_servers this))
      = (found, index) ∧
    getTools this = (Normal found, set_toolIndex index this).
Proof.
  unfold getTools.
  destruct (foldl collectTools _ _) as [found index]. eauto.
Qed.

Lemma loadFromConfig_run sdk sched config (this0 : Manager) :
  let settled := settle sched (map_to_list (merged_mcpServers config)) in
  ∃ found this',
    loadFromConfig sdk sched config this0 =
    (Normal {| lr_servers := omap (loadedInstance sdk config) settled;
               lr_errors := omap (loadError sdk config) settled;
               toolCount := length found |}, this') ∧
    getTools (foldl (afterEntry sdk config) this0 settled) = (Normal found, this').
Proof.
  intros settled. unfold loadFromConfig. fold settled.
  rewrite forEach_loadEntry. simpl.
  destruct (getTools_returns (foldl (afterEntry sdk config) this0 settled))
    as (found & index & _ & E).
  exists found, (set_toolIndex index (foldl (afterEntry sdk config) this0 settled)).
  unfold mbind, M_bind. by rewrite E.
Qed.

(** C1: for every merged configuration with [N] entries of which [k]
    fail to connect, whatever the order in which the attempts settle,
    [loadFromConfig] returns, its [errors] hold exactly [k] entries and
    its [servers] exactly [N - k]; the names in the two lists are, taken
    together, the names of the configuration, so no attempt is lost. *)
Theorem C1_loadFromConfig_isolates_failures
    (sdk : Sdk) (sched : Schedule) (config : MergedConfig) (this0 : Manager) :
  let entries := map_to_list (merged_mcpServers config) in
  let N := size (merged_mcpServers config) in
  let k := length (filter (λ entry, connectFails sdk entry) entries) in
  ∃ result this',
    loadFromConfig sdk sched config this0 = (Normal result, this') ∧
    length (lr_errors result) = k ∧
    length (lr_servers result) = (N - k)%nat ∧
    (err_serverName <$> lr_errors result) ++ (name <$> lr_servers result)
      ≡ₚ entries.*1.
Proof.
  intros entries N k.
  destruct (loadFromConfig_run sdk sched config this0) as (found & this' & E & _).
  eexists _, this'. split; [exact E |]. simpl. fold entries.
  pose proof (settle_perm sched _ entries) as Hperm.
  assert (err_serverName <$> omap (loadError sdk config) (settle sched entries)
          ≡ₚ (filter (λ entry, connectFails sdk entry) entries).*1) as He.
  { by rewrite loadError_names, Hperm. }
  assert (name <$> omap (loadedInstance sdk config) (settle sched entries)
          ≡ₚ (filter (λ entry, ¬ connectFails sdk entry) entries).*1) as Hs.
  { by rewrite loadedInstance_names, Hperm. }
  assert ((filter (λ entry, connectFails sdk entry) entries).*1 ++
          (filter (λ entry, ¬ connectFails sdk entry) entries).*1 ≡ₚ entries.*1) as Hall.
  { rewrite <- fmap_app. by rewrite filter_app_complement. }
  split; [| split].
  - apply Permutation_length in He. rewrite !length_fmap in He. exact He.
  - apply Permutation_length in Hs, Hall.
    rewrite !length_fmap in Hs. rewrite length_app, !length_fmap in Hall.
    unfold N, k. rewrite <- length_map_to_list. fold entries. lia.
  - by rewrite He, Hs.
Qed.

(** ** C6: what a failed connection attempt leaves behind *)

Lemma elem_of_omap_loadError sdk config (l : list (string * McpServerConfig))
    name serverConfig err instance :
  (name, serverConfig) ∈ l →
  connectServer sdk name serverConfig = Threw err instance →
  serverErrorOf config name err ∈ omap (loadError sdk config) l.
Proof.
  intros Hin Hc. apply list_elem_of_omap. exists (name, serverConfig).
  split; [done |]. unfold loadError. simpl. by rewrite Hc.
Qed.

(** C6, as stated, fails: the code attached to the instance does not
    follow the class of the failure. A command that does not exist, a
    handshake that times out and a tool listing that is refused all
    leave the code [CONNECT_TIMEOUT]. *)
Lemma C6_one_code_for_every_failure_class :
  let attached (c : Client) :=
    match connectServer (λ _, c) "s" (Samples.launch "x") with
    | Threw _ instance => err_code <$> error instance
    | Returned _ => None
    end in
  attached (Samples.unreachable Samples.spawnENOENT)
    = Some MCP_ERROR_CODES.CONNECT_TIMEOUT ∧
  attached (Samples.unreachable Samples.requestTimedOut)
    = Some MCP_ERROR_CODES.CONNECT_TIMEOUT ∧
  attached (Samples.mute Samples.methodNotFound)
    = Some MCP_ERROR_CODES.CONNECT_TIMEOUT.
Proof. by vm_compute. Qed.

(** C6, amended: when [connectServer] fails, at spawn, handshake or
    tool listing, the instance is [failed] and carries a structured
    error whose code is [CONNECT_TIMEOUT] whatever the failure was; the
    error thrown by the SDK is rethrown as it is, and [loadFromConfig]
    records for the entry, in the [errors] of its result, an error with
    the code of the thrown error, or [SPAWN_FAILED] when it has none. *)
Theorem C6_failure_is_attached_and_recorded
    (sdk : Sdk) (sched : Schedule) (config : MergedConfig) (this0 : Manager)
    (name : string) (serverConfig : McpServerConfig)
    (err : Error) (instance : McpServerInstance) :
  merged_mcpServers config !! name = Some serverConfig →
  connectServer sdk name serverConfig = Threw err instance →
  (connect (sdk name) (transportFor serverConfig) = Throw err ∨
   listTools (sdk name) = Throw err) ∧
  state instance = FAILED ∧
  error instance =
    Some {| err_code := MCP_ERROR_CODES.CONNECT_TIMEOUT;
            err_message := message err;
            err_serverName := name;
            err_configPath := "";
            err_details := Some err |} ∧
  ∃ result this',
    loadFromConfig sdk sched config this0 = (Normal result, this') ∧
    ∃ recorded,
      recorded ∈ lr_errors result ∧
      err_serverName recorded = name ∧
      err_message recorded = message err ∧
      err_code recorded = default MCP_ERROR_CODES.SPAWN_FAILED (code err).
Proof.
  intros Hin Hc.
  pose proof (connectServer_outcome sdk name serverConfig) as H.
  rewrite Hc in H. destruct H as [-> Hwhy].
  split; [done |]. split; [done |]. split; [done |].
  destruct (loadFromConfig_run sdk sched config this0) as (found & this' & E & _).
  eexists _, this'. split; [exact E |].
  exists (serverErrorOf config name err). split; [| done]. simpl.
  eapply elem_of_omap_loadError; [| exact Hc].
  rewrite (settle_perm sched). by apply elem_of_map_to_list.
Qed.

(** The code that [loadFromConfig] records is the one of the thrown
    error: for a command that does not exist it is [ENOENT], which is
    not a member of [MCP_ERROR_CODES]. *)
Example recorded_code_outside_the_taxonomy (config : MergedConfig) :
  err_code (serverErrorOf config "ghost" Samples.spawnENOENT) = "ENOENT" ∧
  "ENOENT" ∉ MCP_ERROR_CODES.values.
Proof. split; [done | compute_done]. Qed.

Lemma C6_failure_is_attached_and_recorded_witness :
  let sdk : Sdk := λ _, Samples.unreachable Samples.spawnENOENT in
  let serverConfig := Samples.launch "nonexistent-server" in
  let config :=
    {| merged_mcpServers := {[ "ghost" := serverConfig ]};
       merged_sources := {[ "ghost" := project ]} |} in
  let err := Samples.spawnENOENT in
  let instance := failedInstance sdk "ghost" serverConfig err in
  (connect (sdk "ghost") (transportFor serverConfig) = Throw err ∨
   listTools (sdk "ghost") = Throw err) ∧
  state instance = FAILED ∧
  error instance =
    Some {| err_code := MCP_ERROR_CODES.CONNECT_TIMEOUT;
            err_message := message err;
            err_serverName := "ghost";
            err_configPath := "";
            err_details := Some err |} ∧
  ∃ result this',
    loadFromConfig sdk Samples.inOrder config Samples.freshManager
      = (Normal result, this') ∧
    ∃ recorded,
      recorded ∈ lr_errors result ∧
      err_serverName recorded = "ghost" ∧
      err_message recorded = message err ∧
      err_code recorded = default MCP_ERROR_CODES.SPAWN_FAILED (code err).
Proof.
  intros sdk serverConfig config err instance.
  apply (C6_failure_is_attached_and_recorded sdk Samples.inOrder config
           Samples.freshManager "ghost" serverConfig err instance).
  - reflexivity.
  - reflexivity.
Defined.

(** ** The registry: [JsMap], [getTools] and [callTool] *)

Section RegistryFacts.

Context {V : Type}.
Implicit Types (m : list (string * V)) (k : string) (v : V).

Lemma get_set_eq k v m : JsMap.get k (JsMap.set k v m) = Some v.
Proof.
  induction m as [|[k' v'] m IH]; simpl.
  - by rewrite String.eqb_refl.
  - destruct (String.eqb k k') eqn:E; simpl.
    + by rewrite String.eqb_refl.
    + by rewrite E.
Qed.

Lemma get_set_ne k k' v m : k ≠ k' → JsMap.get k (JsMap.set k' v m) = JsMap.get k m.
Proof.
  intros Hne. induction m as [|[k'' v''] m IH]; simpl.
  - by apply String.eqb_neq in Hne as ->.
  - destruct (String.eqb k' k'') eqn:E; simpl.
    + apply String.eqb_eq in E as <-.
      by apply String.eqb_neq in Hne as ->.
    + by rewrite IH.
Qed.

End RegistryFacts.

Lemma registerTools_app index (l1 l2 : list McpTool) :
  registerTools index (l1 ++ l2) = registerTools (registerTools index l1) l2.
Proof. apply foldl_app. Qed.

(** After registration a name leads to the last tool registered under
    it, and any other name to what it led to before. *)
Lemma registerTools_get index (found : list McpTool) (nm : string) :
  JsMap.get nm (registerTools index found) =
  match last (filter (λ t, tool_name t = nm) found) with
  | Some t => Some t
  | None => JsMap.get nm index
  end.
Proof.
  induction found as [|t found IH] using rev_ind; [done |].
  rewrite registerTools_app, filter_app, filter_cons, filter_nil. simpl.
  destruct (decide (tool_name t = nm)) as [<-|Hne].
  - by rewrite last_snoc, get_set_eq.
  - rewrite app_nil_r, get_set_ne by done. apply IH.
Qed.

Lemma foldl_collectTools (l : list McpServerInstance) found index :
  let operating := filter (λ server, state server = OPERATING) l in
  foldl collectTools (found, index) l =
  (found ++ concat (tools <$> operating),
   registerTools index (concat (tools <$> operating))).
Proof.
  revert found index. induction l as [|server l IH]; intros found index; simpl.
  - by rewrite app_nil_r.
  - rewrite filter_cons. destruct (decide (state server = OPERATING)); simpl.
    + rewrite IH. simpl. by rewrite registerTools_app, app_assoc.
    + apply IH.
Qed.

Lemma getTools_run (this : Manager) :
  let found :=
    concat (tools <$> filter (λ server, state server = OPERATING)
                             (JsMap.values (this_servers this))) in
  getTools this =
  (Normal found, set_toolIndex (registerTools (this_tools this) found) this).
Proof. unfold getTools. by rewrite foldl_collectTools. Qed.

(** [callTool] leaves the manager as it was, and its result is the same
    whatever [this.tools] holds. *)
Lemma callTool_ignores_index toolName args (this : Manager) index :
  ∃ r, callTool toolName args this = (r, this) ∧
       callTool toolName args (set_toolIndex index this) =
         (r, set_toolIndex index this).
Proof.
  unfold callTool. destruct (indexOf toolName "__" =? -1); [by eexists |].
  unfold mbind, M_bind, getState, try_catch, lift. simpl.
  destruct (JsMap.get _ (this_servers this)) as [server|]; [| by eexists].
  destruct (decide (state server ≠ OPERATING)); [by eexists |].
  destruct (client_callTool _ _ _); by eexists.
Qed.

(** ** C5: what [getTools] returns and what it does to the index *)

(** C5, as stated, fails on the part it says [callTool] plays: the
    routing of [callTool] does not go through the index. With a server
    [s] operating and an index that holds nothing, the call of [s__t] is
    forwarded to the client of [s] all the same. *)
Lemma C5_callTool_routes_without_the_index :
  let this :=
    {| this_servers :=
         [("s", Samples.running "s" (Samples.healthy [Samples.tool "t"])
                  [Samples.tool "t"])];
       this_tools := [];
       console := [] |} in
  JsMap.get "s__t" (this_tools this) = None ∧
  callTool "s__t" (Obj []) this =
    (Normal {| success := true;
               content := Some [Str "done"];
               tr_error := None;
               metadata := Some {| md_serverName := "s"; md_toolName := "t" |} |},
     this).
Proof. by vm_compute. Qed.

(** C5, amended: in every state of the manager [getTools] returns
    exactly the tool lists, laid end to end in the order of the
    registry, of the connections whose state is [operating]; connections
    in any other state give nothing. As a side effect it sets, in the
    index from namespaced names to tools, the entry of every returned
    name (the last tool of that name wins) and leaves every other entry
    as it was. [callTool] does not read that index: it routes through the
    registry of connections, and its result is the same whatever the
    index holds. *)
Theorem C5_getTools_operating_only (this : Manager) :
  let operating :=
    filter (λ server, state server = OPERATING) (JsMap.values (this_servers this)) in
  let found := concat (tools <$> operating) in
  ∃ this',
    getTools this = (Normal found, this') ∧
    this_servers this' = this_servers this ∧
    console this' = console this ∧
    (∀ nm : string,
       JsMap.get nm (this_tools this') =
       match last (filter (λ t, tool_name t = nm) found) with
       | Some t => Some t
       | None => JsMap.get nm (this_tools this)
       end) ∧
    (∀ toolName args index,
       ∃ r, callTool toolName args this = (r, this) ∧
            callTool toolName args (set_toolIndex index this) =
              (r, set_toolIndex index this)).
Proof.
  intros operating found.
  exists (set_toolIndex (registerTools (this_tools this) found) this).
  split; [apply getTools_run |]. split; [done |]. split; [done |]. split.
  - intros nm. apply registerTools_get.
  - intros. apply callTool_ignores_index.
Qed.

(** ** C4 and C10: the dispatch of [callTool] *)

(** C4: [callTool] returns for every name and arguments, never throws
    and leaves the manager as it was. A name without separator gives the
    [TOOL_NOT_FOUND] failure for an invalid format, the same in every
    state of the manager; a prefix that names no registered connection
    gives the [TOOL_NOT_FOUND] failure for a server not found; a
    connection that is not operating gives a [SERVER_CRASHED] failure
    that names its state; an exception of the call made through the
    client comes back as a [TOOL_EXECUTION_FAILED] failure. *)
Theorem C4_callTool_dispatch (toolName : string) (args : Value) (this : Manager) :
  let separatorIndex := indexOf toolName "__" in
  let serverName := slice toolName 0 (Some separatorIndex) in
  let originalToolName := slice toolName (separatorIndex + 2) None in
  ∃ result,
    callTool toolName args this = (Normal result, this) ∧
    if occursIn "__" toolName then
      match JsMap.get serverName (this_servers this) with
      | None =>
          result =
            failure MCP_ERROR_CODES.TOOL_NOT_FOUND
              ("Server not found: " +:+ serverName) toolName args None
      | Some server =>
          if decide (state server = OPERATING) then
            match client_callTool (client server) originalToolName args with
            | Throw err =>
                result =
                  failure MCP_ERROR_CODES.TOOL_EXECUTION_FAILED
                    (message err) toolName args (Some err)
            | Normal response =>
                result =
                  {| success := true;
                     content := Some (resp_content response);
                     tr_error := None;
                     metadata := Some {| md_serverName := serverName;
                                         md_toolName := originalToolName |} |}
            end
          else
            result =
              failure MCP_ERROR_CODES.SERVER_CRASHED
                ("Server '" +:+ serverName +:+ "' is not operating (state: "
                 +:+ stateValue (state server) +:+ ")")
                toolName args None
      end
    else
      result =
        failure MCP_ERROR_CODES.TOOL_NOT_FOUND
          ("Invalid tool name format: " +:+ toolName +:+
           ". Expected format: servername__toolname")
          toolName args None ∧
      ∀ other : Manager, callTool toolName args other = (Normal result, other).
Proof.
  intros separatorIndex serverName originalToolName.
  unfold callTool. fold separatorIndex. fold serverName. fold originalToolName.
  destruct (occursIn "__" toolName) eqn:Hocc.
  - assert ((separatorIndex =? -1) = false) as ->.
    { apply Z.eqb_neq. intros H. apply indexOf_absent_iff in H. congruence. }
    unfold mbind, M_bind, getState, try_catch, lift. simpl.
    destruct (JsMap.get serverName (this_servers this)) as [server|];
      [| by eexists].
    destruct (decide (state server = OPERATING)) as [Hop|Hop].
    + rewrite decide_False by (by intros H; apply H).
      destruct (client_callTool _ _ _); by eexists.
    + rewrite decide_True by done. by eexists.
  - apply indexOf_absent_iff in Hocc. fold separatorIndex in Hocc.
    rewrite Hocc. simpl. by eexists.
Qed.

Lemma indexOf_leading_separator rest : indexOf ("__" +:+ rest) "__" = 0.
Proof. unfold indexOf. rewrite indexOfFrom_eq. by destruct rest. Qed.

Lemma slice_empty s : slice s 0 (Some 0) = "".
Proof.
  unfold slice. replace (0 <? 0) with false by done.
  rewrite Z.min_l by lia. simpl. by destruct s.
Qed.

(** C10, as stated, fails when a connection is registered under the
    empty name: the call of [__x] is then forwarded to that connection
    and succeeds, instead of failing with a server not found. *)
Lemma C10_empty_server_name_may_be_registered :
  let this :=
    {| this_servers :=
         [("", Samples.running "" (Samples.healthy [Samples.tool "x"])
                 [Samples.tool "x"])];
       this_tools := [];
       console := [] |} in
  callTool "__x" (Obj []) this =
    (Normal {| success := true;
               content := Some [Str "done"];
               tr_error := None;
               metadata := Some {| md_serverName := ""; md_toolName := "x" |} |},
     this).
Proof. by vm_compute. Qed.

(** C10, amended: for every arguments object and every tool name that
    begins with the separator, the format check of [callTool] passes,
    since the separator is found at index 0; when no connection is
    registered under the empty name the call fails with [TOOL_NOT_FOUND]
    and the message of a server not found, for the empty server name,
    and not with the message of an invalid format. *)
Theorem C10_leading_separator_is_server_not_found
    (rest : string) (args : Value) (this : Manager) :
  JsMap.get "" (this_servers this) = None →
  indexOf ("__" +:+ rest) "__" = 0 ∧
  callTool ("__" +:+ rest) args this =
    (Normal (failure MCP_ERROR_CODES.TOOL_NOT_FOUND
               ("Server not found: " +:+ "") ("__" +:+ rest) args None),
     this).
Proof.
  intros Hnone. split; [apply indexOf_leading_separator |].
  unfold callTool. rewrite indexOf_leading_separator. simpl.
  rewrite slice_empty.
  unfold mbind, M_bind, getState. simpl. by rewrite Hnone.
Qed.

Lemma C10_leading_separator_is_server_not_found_witness :
  indexOf ("__" +:+ "list_files") "__" = 0 ∧
  callTool ("__" +:+ "list_files") (Obj []) Samples.freshManager =
    (Normal (failure MCP_ERROR_CODES.TOOL_NOT_FOUND
               ("Server not found: " +:+ "") ("__" +:+ "list_files") (Obj []) None),
     Samples.freshManager).
Proof.
  apply (C10_leading_separator_is_server_not_found "list_files" (Obj [])
           Samples.freshManager).
  reflexivity.
Defined.

(** ** C8: [cleanup] *)

Lemma closeServer_run (entry : string * McpServerInstance) (this : Manager) :
  ∃ this',
    closeServer entry this = (Normal tt, this') ∧
    this_tools this' = this_tools this ∧
    console this' = console this ++ option_list (closeWarning entry).
Proof.
  destruct entry as [n server].
  unfold closeServer, closeWarning, try_catch, mbind, M_bind, lift, modify. simpl.
  destruct (close (client server)); simpl; eexists; split; try done.
  by rewrite app_nil_r.
Qed.

Lemma forEach_closeServer (l : list (string * McpServerInstance)) (this : Manager) :
  ∃ this',
    forEach closeServer l this = (Normal tt, this') ∧
    this_tools this' = this_tools this ∧
    console this' = console this ++ omap closeWarning l.
Proof.
  revert this. induction l as [|entry l IH]; intros this; simpl.
  - exists this. by rewrite app_nil_r.
  - destruct (closeServer_run entry this) as (this1 & -> & Ht1 & Hc1).
    destruct (IH this1) as (this2 & -> & Ht2 & Hc2).
    exists this2. split; [done |]. split; [congruence |].
    rewrite Hc2, Hc1, <- app_assoc. f_equal.
    by destruct (closeWarning entry).
Qed.

Lemma cleanup_run (sched : Schedule) (this : Manager) :
  cleanup sched this =
  (Normal tt,
   {| this_servers := []; this_tools := [];
      console := console this ++
                 omap closeWarning (settle sched (this_servers this)) |}).
Proof.
  unfold cleanup, mbind, M_bind, getState, modify. simpl.
  destruct (forEach_closeServer (settle sched (JsMap.entries (this_servers this))) this)
    as (this' & -> & _ & Hc).
  unfold set_toolIndex, set_servers, JsMap.clear, JsMap.entries in *. simpl.
  by rewrite Hc.
Qed.

Lemma closeWarning_closeFails (entry : string * McpServerInstance) :
  if closeFails entry then ∃ w, closeWarning entry = Some w
  else closeWarning entry = None.
Proof.
  unfold closeFails, closeWarning. destruct (close (client entry.2)); eauto.
Qed.

Lemma settle_nil (sched : Schedule) (A : Type) : settle sched (@nil A) = [].
Proof. apply Permutation_nil. symmetry. apply settle_perm. Qed.

(** C8: [cleanup] returns in every state of the manager, an empty
    registry included, and never throws; a close that fails gives one
    warning on the console and nothing more, and the other connections
    are closed all the same; afterwards the registry and the tool index
    are empty and [getTools] returns the empty list; a second [cleanup]
    returns as well and changes nothing. *)
Theorem C8_cleanup_total_and_idempotent (sched sched' : Schedule) (this : Manager) :
  ∃ this',
    cleanup sched this = (Normal tt, this') ∧
    this_servers this' = [] ∧
    this_tools this' = [] ∧
    console this' =
      console this ++ omap closeWarning (settle sched (this_servers this)) ∧
    length (omap closeWarning (settle sched (this_servers this))) =
      length (filter (λ entry, closeFails entry) (this_servers this)) ∧
    getTools this' = (Normal [], this') ∧
    cleanup sched' this' = (Normal tt, this').
Proof.
  eexists. split; [apply cleanup_run |]. simpl.
  split; [done |]. split; [done |]. split; [done |]. split.
  - rewrite (settle_perm sched).
    induction (this_servers this) as [|entry l IH]; [done |].
    rewrite filter_cons. csimpl.
    pose proof (closeWarning_closeFails entry) as Hw.
    destruct (closeFails entry).
    + destruct Hw as [w ->]. rewrite decide_True by done. simpl. by rewrite IH.
    + rewrite Hw. by rewrite decide_False by (by intros []).
  - split; [done |].
    rewrite cleanup_run. simpl. by rewrite settle_nil, app_nil_r.
Qed.

(** ** C9: [discoverConfigs] *)

Lemma loadConfigFile_run (e : Env) (filePath : string) (console : Console) :
  ∃ slot printed,
    loadConfigFile e filePath console = (Normal slot, console ++ printed) ∧
    slotOutcome filePath (readFile e filePath) slot printed.
Proof.
  unfold loadConfigFile, slotOutcome, try_catch, mbind, M_bind, lift,
    McpConfigLoader.warn, modify. simpl.
  destruct (readFile e filePath) as [[msg|v]|err]; simpl.
  - eexists _, _. split; [reflexivity | done].
  - exists v, []. by rewrite app_nil_r.
  - destruct (decide (code err = Some "ENOENT")); simpl.
    + exists Null, []. by rewrite app_nil_r.
    + eexists _, _. split; [reflexivity | done].
Qed.

(** C9, as stated, fails for a file that holds JSON of another
    structure than [McpConfig]: a project file that holds the empty
    object is returned as it is, not [null], and nothing is printed. *)
Lemma C9_json_of_another_structure_is_returned :
  let e := Samples.projectOnly (Json (Obj [])) in
  isMcpConfig (Obj []) = false ∧
  discoverConfigs e None false [] = (Normal (Null, Obj []), []).
Proof. by vm_compute. Qed.

(** C9, amended: [discoverConfigs] never throws and fills each of its
    two slots from the file of that slot alone. A file that is absent
    ([ENOENT]) gives [null] and no warning; a file that cannot be read for
    another reason, or whose text is not JSON, gives [null] and one
    warning that names the path; a file that holds JSON gives the parsed
    value as it is, of whatever structure, and no warning. *)
Theorem C9_discoverConfigs_slots_are_independent
    (e : Env) (workingDir : option string) (projectFirst : bool)
    (console : Console) :
  let globalPath := getGlobalConfigPath e in
  let projectPath := getProjectConfigPath e workingDir in
  ∃ global_ project_ printedGlobal printedProject,
    discoverConfigs e workingDir projectFirst console =
      (Normal (global_, project_),
       console ++ (if projectFirst then printedProject ++ printedGlobal
                   else printedGlobal ++ printedProject)) ∧
    slotOutcome globalPath (readFile e globalPath) global_ printedGlobal ∧
    slotOutcome projectPath (readFile e projectPath) project_ printedProject.
Proof.
  intros globalPath projectPath. unfold discoverConfigs.
  fold globalPath. fold projectPath.
  unfold mbind, M_bind, mret, M_ret.
  destruct projectFirst.
  - destruct (loadConfigFile_run e projectPath console) as (p & wp & -> & Hp).
    destruct (loadConfigFile_run e globalPath (console ++ wp)) as (g & wg & -> & Hg).
    exists g, p, wg, wp. by rewrite <- app_assoc.
  - destruct (loadConfigFile_run e globalPath console) as (g & wg & -> & Hg).
    destruct (loadConfigFile_run e projectPath (console ++ wg)) as (p & wp & -> & Hp).
    exists g, p, wg, wp. by rewrite <- app_assoc.
Qed.

(** ** The cases of the test suite, run on the model *)

Section TestSuite.

Import Samples.

(** [mergeConfigs]: "should merge configs with project taking precedence". *)
Example merge_project_takes_precedence :
  let G := {| mcpServers := {[ "github" := launch "github-global";
                               "serena" := launch "serena-global" ]} |} in
  let P := {| mcpServers := {[ "serena" := launch "serena-project";
                               "filesystem" := launch "filesystem" ]} |} in
  ∃ merged printed,
    mergeConfigs (Some G) (Some P) [] = (Normal merged, printed) ∧
    size (merged_mcpServers merged) = 3%nat ∧
    merged_mcpServers merged !! "serena" = Some (launch "serena-project") ∧
    merged_sources merged !! "serena" = Some project ∧
    merged_sources merged !! "github" = Some global ∧
    merged_sources merged !! "filesystem" = Some project ∧
    length printed = 1%nat.
Proof. eexists _, _. split; [reflexivity |]. by vm_compute. Qed.

(** [callTool]: "should reject invalid tool name format" and "should
    reject tool from non-existent server". *)
Example callTool_rejects_invalid_format :
  callTool "invalid-format" (Obj []) freshManager =
    (Normal (failure "TOOL_NOT_FOUND"
               "Invalid tool name format: invalid-format. Expected format: servername__toolname"
               "invalid-format" (Obj []) None),
     freshManager).
Proof. reflexivity. Qed.

Example callTool_rejects_unknown_server :
  callTool "nonexistent__tool" (Obj []) freshManager =
    (Normal (failure "TOOL_NOT_FOUND" "Server not found: nonexistent"
               "nonexistent__tool" (Obj []) None),
     freshManager).
Proof. reflexivity. Qed.

(** [loadFromConfig]: "should continue loading other servers if one
    fails" and "should track source for each server". *)
Example load_two_invalid_servers :
  let config :=
    {| merged_mcpServers := {[ "invalid1" := launch "nonexistent-server-1";
                               "invalid2" := launch "nonexistent-server-2" ]};
       merged_sources := {[ "invalid1" := global; "invalid2" := project ]} |} in
  ∃ result this',
    loadFromConfig (λ _, unreachable spawnENOENT) lastFirst config freshManager
      = (Normal result, this') ∧
    length (lr_errors result) = 2%nat ∧
    length (lr_servers result) = 0%nat ∧
    toolCount result = 0%nat ∧
    ((λ r, (err_serverName r, err_configPath r)) <$> lr_errors result)
      ≡ₚ [("invalid1", "~/.config/yolo-cli/mcp.json");
          ("invalid2", ".yolo/mcp.json")] ∧
    getServerStatus "invalid1" this' = None.
Proof.
  eexists _, _. split; [reflexivity |]. vm_compute.
  repeat split; try done.
  first [ reflexivity | apply perm_swap ].
Qed.

(** One server starts and the other does not: the first is registered
    with its tools and the second is reported. *)
Example load_one_of_two :
  let sdk : Sdk := λ n,
    if String.eqb n "files" then healthy [tool "read"; tool "write"]
    else unreachable spawnENOENT in
  let config :=
    {| merged_mcpServers := {[ "files" := launch "files-server";
                               "ghost" := launch "nonexistent-server" ]};
       merged_sources := {[ "files" := project; "ghost" := global ]} |} in
  ∃ result this' found this'',
    loadFromConfig sdk inOrder config freshManager = (Normal result, this') ∧
    getTools this' = (Normal found, this'') ∧
    (name <$> lr_servers result) = ["files"] ∧
    (source <$> lr_servers result) = [project] ∧
    (err_serverName <$> lr_errors result) = ["ghost"] ∧
    toolCount result = 2%nat ∧
    (tool_name <$> found) = ["files__read"; "files__write"].
Proof.
  eexists _, _, _, _. split; [reflexivity |]. split; [reflexivity |].
  by vm_compute.
Qed.

(** [getTools] and [cleanup] with no server loaded. *)
Example getTools_of_fresh_manager :
  getTools freshManager = (Normal [], freshManager).
Proof. reflexivity. Qed.

Example cleanup_of_fresh_manager :
  cleanup inOrder freshManager = (Normal tt, freshManager).
Proof. reflexivity. Qed.

(** [discoverConfigs]: "should return null and warn on invalid JSON". *)
Example discover_invalid_json :
  discoverConfigs (projectOnly (NotJson "Unexpected token i in JSON at position 0"))
    None false [] =
  (Normal (Null, Null),
   [ConsoleWarn "Warning: Failed to load MCP config from /work/.yolo/mcp.json: Unexpected token i in JSON at position 0"]).
Proof. reflexivity. Qed.

End TestSuite.

(** * Further properties of the code *)

Import Lifecycle.

(** ** The registry after [loadFromConfig] *)

Section RegistryAfterLoad.

Context {V : Type}.
Implicit Types (m : list (string * V)) (k : string) (v : V).

Lemma get_app_None k m m' :
  JsMap.get k m = None → JsMap.get k (m ++ m') = JsMap.get k m'.
Proof.
  induction m as [|[k' v'] m IH]; simpl; [done |].
  destruct (String.eqb k k'); [done | apply IH].
Qed.

Lemma set_fresh k v m :
  JsMap.get k m = None → JsMap.set k v m = m ++ [(k, v)].
Proof.
  induction m as [|[k' v'] m IH]; simpl; [done |].
  destruct (String.eqb k k'); [done |]. intros H. by rewrite IH.
Qed.

Lemma set_Forall (P : string * V → Prop) k v m :
  P (k, v) → Forall P m → Forall P (JsMap.set k v m).
Proof.
  intros Hkv. induction 1 as [|[k' v'] m Hx Hm IH]; simpl.
  - by constructor.
  - destruct (String.eqb k k'); by constructor.
Qed.

Lemma set_keys_present k v m :
  is_Some (JsMap.get k m) → (JsMap.set k v m).*1 = m.*1.
Proof.
  induction m as [|[k' v'] m IH]; simpl; [by intros [? ?] |].
  destruct (String.eqb k k') eqn:E; csimpl.
  - by apply String.eqb_eq in E as ->.
  - intros H. by rewrite IH.
Qed.

End RegistryAfterLoad.

Section AfterEntry.

Variables (sdk : Sdk) (config : MergedConfig).
Implicit Types (l : list (string * McpServerConfig)) (this : Manager).

Lemma afterEntry_get this entry n :
  JsMap.get n (this_servers (afterEntry sdk config this entry)) =
  if decide (n = entry.1) then
    match loadedInstance sdk config entry with
    | Some instance => Some instance
    | None => JsMap.get n (this_servers this)
    end
  else JsMap.get n (this_servers this).
Proof.
  unfold afterEntry, loadedInstance.
  destruct (connectServer sdk entry.1 entry.2); simpl.
  - destruct (decide (n = entry.1)) as [->|Hne].
    + apply get_set_eq.
    + by apply get_set_ne.
  - by destruct (decide (n = entry.1)).
Qed.

Lemma foldl_afterEntry_get_other l this n :
  n ∉ l.*1 →
  JsMap.get n (this_servers (foldl (afterEntry sdk config) this l)) =
  JsMap.get n (this_servers this).
Proof.
  revert this. induction l as [|entry l IH]; intros this Hn; [done |].
  apply not_elem_of_cons in Hn as [Hne Hn]. simpl.
  rewrite IH by done. rewrite afterEntry_get. by rewrite decide_False.
Qed.

Lemma foldl_afterEntry_get l this entry :
  NoDup l.*1 → entry ∈ l →
  JsMap.get entry.1 (this_servers (foldl (afterEntry sdk config) this l)) =
  match loadedInstance sdk config entry with
  | Some instance => Some instance
  | None => JsMap.get entry.1 (this_servers this)
  end.
Proof.
  revert this. induction l as [|e l IH]; intros this Hnd Hin.
  - by apply elem_of_nil in Hin.
  - apply NoDup_cons in Hnd as [Hfresh Hnd]. simpl.
    apply elem_of_cons in Hin as [->|Hin].
    + rewrite foldl_afterEntry_get_other by done.
      rewrite afterEntry_get. by rewrite decide_True.
    + rewrite IH by done. rewrite afterEntry_get.
      rewrite decide_False; [done |].
      intros Heq. apply Hfresh. rewrite <- Heq.
      apply list_elem_of_fmap. by exists entry.
Qed.

Lemma foldl_afterEntry_tools l this :
  this_tools (foldl (afterEntry sdk config) this l) = this_tools this.
Proof.
  revert this. induction l as [|e l IH]; intros this; [done |]. simpl.
  rewrite IH. unfold afterEntry. by destruct (connectServer sdk e.1 e.2).
Qed.

Lemma foldl_afterEntry_console l this :
  console (foldl (afterEntry sdk config) this l) =
  console this ++ (startWarning <$> omap (loadError sdk config) l).
Proof.
  revert this. induction l as [|e l IH]; intros this; simpl.
  - by rewrite app_nil_r.
  - rewrite IH. unfold afterEntry, loadError at 2.
    destruct (connectServer sdk e.1 e.2); simpl; [done |].
    by rewrite <- app_assoc.
Qed.

Lemma loadedInstance_sound entry instance :
  loadedInstance sdk config entry = Some instance →
  soundInstance (entry.1, instance) ∧
  source instance = default global (merged_sources config !! entry.1).
Proof.
  unfold loadedInstance.
  pose proof (connectServer_outcome sdk entry.1 entry.2) as H.
  destruct (connectServer sdk entry.1 entry.2) as [i|]; [| done].
  destruct H as (response & _ & ->). intros [= <-].
  split; [| done]. split; [done |]. split; [done |]. simpl.
  apply Forall_fmap, Forall_true. intros provided. by exists provided.
Qed.

Lemma afterEntry_sound this entry :
  soundRegistry this → soundRegistry (afterEntry sdk config this entry).
Proof.
  unfold soundRegistry, afterEntry. intros H.
  pose proof (loadedInstance_sound entry) as Hs. unfold loadedInstance in Hs.
  destruct (connectServer sdk entry.1 entry.2); simpl; [| done].
  apply set_Forall; [| done]. by apply Hs.
Qed.

Lemma foldl_afterEntry_sound l this :
  soundRegistry this → soundRegistry (foldl (afterEntry sdk config) this l).
Proof.
  revert this. induction l as [|e l IH]; intros this H; [done |].
  simpl. by apply IH, afterEntry_sound.
Qed.

(** From an empty registry the entries are appended as they settle. *)
Lemma foldl_afterEntry_fresh l this :
  NoDup l.*1 →
  Forall (λ entry, JsMap.get entry.1 (this_servers this) = None) l →
  this_servers (foldl (afterEntry sdk config) this l) =
  this_servers this ++ omap (registeredEntry sdk config) l.
Proof.
  revert this. induction l as [|e l IH]; intros this Hnd Hfresh; simpl.
  - by rewrite app_nil_r.
  - apply NoDup_cons in Hnd as [He Hnd].
    apply Forall_cons in Hfresh as [Hget Hfresh].
    rewrite IH; [| done |].
    + unfold afterEntry, registeredEntry at 2, loadedInstance.
      destruct (connectServer sdk e.1 e.2); simpl; [| done].
      rewrite set_fresh by done. by rewrite <- app_assoc.
    + apply Forall_forall. intros e' Hin.
      rewrite afterEntry_get. rewrite decide_False.
      * by apply (proj1 (Forall_forall _ _) Hfresh).
      * intros Heq. apply He. rewrite <- Heq.
        apply list_elem_of_fmap. by exists e'.
Qed.

End AfterEntry.

(** X1: after [loadFromConfig], name by name: a name of the
    configuration whose connection attempt succeeded leads to the
    instance just connected, which is [operating], carries that name
    and the provenance recorded for it ([global] when none is), and is
    one of the [servers] of the result; any other name, be it absent
    from the configuration or failed, leads to what it led to before
    the call. *)
Theorem X1_registry_after_load
    (sdk : Sdk) (sched : Schedule) (config : MergedConfig) (this0 : Manager)
    (n : string) :
  ∃ result this',
    loadFromConfig sdk sched config this0 = (Normal result, this') ∧
    match merged_mcpServers config !! n with
    | Some serverConfig =>
        if connectFails sdk (n, serverConfig) then
          getServerStatus n this' = getServerStatus n this0
        else
          ∃ instance,
            getServerStatus n this' = Some instance ∧
            instance ∈ lr_servers result ∧
            name instance = n ∧
            state instance = OPERATING ∧
            source instance = default global (merged_sources config !! n)
    | None => getServerStatus n this' = getServerStatus n this0
    end.
Proof.
  destruct (loadFromConfig_run sdk sched config this0)
    as (found & this' & E & Hg).
  eexists _, this'. split; [exact E |].
  destruct (getTools_returns
              (foldl (afterEntry sdk config) this0
                 (settle sched (map_to_list (merged_mcpServers config)))))
    as (found' & index & _ & Hg').
  rewrite Hg' in Hg. injection Hg as _ <-.
  unfold getServerStatus. simpl.
  set (l := settle sched (map_to_list (merged_mcpServers config))).
  assert (NoDup l.*1) as Hnd.
  { unfold l. rewrite (settle_perm sched). apply NoDup_fst_map_to_list. }
  destruct (merged_mcpServers config !! n) as [serverConfig|] eqn:Hn.
  - assert ((n, serverConfig) ∈ l) as Hin.
    { unfold l. rewrite (settle_perm sched). by apply elem_of_map_to_list. }
    pose proof (foldl_afterEntry_get sdk config l this0 (n, serverConfig) Hnd Hin)
      as Hget.
    simpl in Hget. rewrite Hget. clear Hget.
    destruct (connectFails sdk (n, serverConfig)) eqn:F.
    + by destruct (connectFails_true sdk config _ F) as (e & _ & ->).
    + destruct (connectFails_false sdk config _ F) as (i & Hi & Hname & _).
      rewrite Hi. exists i. split; [done |]. split.
      * apply list_elem_of_omap. by exists (n, serverConfig).
      * destruct (loadedInstance_sound sdk config _ _ Hi) as [(_ & Hs & _) Hsrc].
        done.
  - apply foldl_afterEntry_get_other.
    intros Hin. apply list_elem_of_fmap in Hin as ([n' c] & -> & Hin).
    unfold l in Hin. rewrite (settle_perm sched) in Hin.
    apply elem_of_map_to_list in Hin. simpl in Hn. congruence.
Qed.

(** X2: [loadFromConfig] prints one warning for each error it records,
    in the order of the [errors] of the result and after what the
    console held, and nothing else; the warning names the server and
    gives the message of the error. *)
Theorem X2_one_warning_per_recorded_error
    (sdk : Sdk) (sched : Schedule) (config : MergedConfig) (this0 : Manager) :
  ∃ result this',
    loadFromConfig sdk sched config this0 = (Normal result, this') ∧
    console this' = console this0 ++ (startWarning <$> lr_errors result) ∧
    Forall (λ e, ∃ serverConfig,
              merged_mcpServers config !! err_serverName e = Some serverConfig ∧
              startWarning e =
                ConsoleWarn ("✗ MCP server '" +:+ err_serverName e +:+
                             "' failed to start: " +:+ err_message e))
           (lr_errors result).
Proof.
  destruct (loadFromConfig_run sdk sched config this0)
    as (found & this' & E & Hg).
  eexists _, this'. split; [exact E |]. simpl.
  destruct (getTools_returns
              (foldl (afterEntry sdk config) this0
                 (settle sched (map_to_list (merged_mcpServers config)))))
    as (found' & index & _ & Hg').
  rewrite Hg' in Hg. injection Hg as _ <-. simpl.
  split; [apply foldl_afterEntry_console |].
  apply Forall_forall. intros e Hin.
  apply list_elem_of_omap in Hin as ([n c] & Hin & He).
  rewrite (settle_perm sched) in Hin. apply elem_of_map_to_list in Hin.
  unfold loadError in He. simpl in He.
  destruct (connectServer sdk n c); [done |]. injection He as <-.
  by exists c.
Qed.

(** X3: on a manager whose registry is empty, the registry after
    [loadFromConfig] holds exactly the [servers] of the result, each
    under its name and in the order of that list, and [toolCount] is the
    total number of their tools. *)
Theorem X3_load_into_empty_registry
    (sdk : Sdk) (sched : Schedule) (config : MergedConfig)
    (index : list (string * McpTool)) (printed : Console) :
  let this0 := {| this_servers := []; this_tools := index; console := printed |} in
  ∃ result this',
    loadFromConfig sdk sched config this0 = (Normal result, this') ∧
    this_servers this' = (λ instance, (name instance, instance)) <$> lr_servers result ∧
    toolCount result = length (concat (tools <$> lr_servers result)) ∧
    toolCount result = sum_list (length ∘ tools <$> lr_servers result).
Proof.
  intros this0.
  destruct (loadFromConfig_run sdk sched config this0)
    as (found & this' & E & Hg).
  eexists _, this'. split; [exact E |]. simpl.
  set (l := settle sched (map_to_list (merged_mcpServers config))) in *.
  assert (NoDup l.*1) as Hnd.
  { unfold l. rewrite (settle_perm sched). apply NoDup_fst_map_to_list. }
  assert (this_servers (foldl (afterEntry sdk config) this0 l) =
          (λ instance, (name instance, instance)) <$>
            omap (loadedInstance sdk config) l) as Hreg.
  { rewrite foldl_afterEntry_fresh; [| done | by apply Forall_true].
    simpl. clear. induction l as [|e l IH]; [done |]. csimpl.
    unfold registeredEntry at 1.
    destruct (loadedInstance sdk config e) as [i|] eqn:Hi; csimpl; [| done].
    destruct (loadedInstance_sound sdk config e i Hi) as [(Hn & _) _].
    simpl in Hn. by rewrite IH, Hn. }
  rewrite getTools_run in Hg. injection Hg as <- <-. simpl.
  split; [exact Hreg |].
  assert (filter (λ server, state server = OPERATING)
            (JsMap.values (this_servers (foldl (afterEntry sdk config) this0 l)))
          = omap (loadedInstance sdk config) l) as ->.
  { rewrite Hreg. unfold JsMap.values. clear.
    induction l as [|e l IH]; [done |]. csimpl.
    destruct (loadedInstance sdk config e) as [i|] eqn:Hi; csimpl; [| done].
    destruct (loadedInstance_sound sdk config e i Hi) as [(_ & Hs & _) _].
    rewrite filter_cons, decide_True by done. by rewrite IH. }
  split; [done |].
  generalize (omap (loadedInstance sdk config) l). clear.
  induction l as [|i l IH]; [done |]. csimpl.
  rewrite length_app. by rewrite IH.
Qed.

(** ** States reached by use *)

Lemma get_Forall {V} (P : string * V → Prop) (m : list (string * V)) k v :
  Forall P m → JsMap.get k m = Some v → P (k, v).
Proof.
  induction 1 as [|[k' v'] m Hx Hm IH]; simpl; [done |].
  destruct (String.eqb k k') eqn:E; [| done].
  apply String.eqb_eq in E as ->. by intros [= <-].
Qed.

Lemma reachable_sound (this : Manager) : Reachable this → soundRegistry this.
Proof.
  induction 1 as [printed
                 | sdk sched config this r this' _ IH E
                 | this r this' _ IH E
                 | toolName args this r this' _ IH E
                 | sched this r this' _ IH E].
  - constructor.
  - destruct (loadFromConfig_run sdk sched config this) as (found & this'' & E' & Hg).
    rewrite E' in E. injection E as _ <-.
    rewrite getTools_run in Hg. injection Hg as _ <-.
    by apply foldl_afterEntry_sound.
  - rewrite getTools_run in E. by injection E as _ <-.
  - destruct (callTool_ignores_index toolName args this []) as (r' & E' & _).
    rewrite E' in E. by injection E as _ <-.
  - rewrite cleanup_run in E. injection E as _ <-. constructor.
Qed.

(** X4: in every state that completed calls of [loadFromConfig],
    [getTools], [callTool] and [cleanup] lead to from a new manager, a
    name of the registry leads to an instance that carries that name, is
    [operating], and whose tools are all named by joining that name, the
    separator and the name the provider gave. *)
Theorem X4_registered_instances_are_operating
    (this : Manager) (n : string) (instance : McpServerInstance) :
  Reachable this →
  getServerStatus n this = Some instance →
  name instance = n ∧
  state instance = OPERATING ∧
  Forall (λ t, tool_serverName t = n ∧
               tool_name t = n +:+ "__" +:+ originalName t)
         (tools instance).
Proof.
  intros Hreach Hget. apply reachable_sound in Hreach.
  destruct (get_Forall _ _ _ _ Hreach Hget) as (Hn & Hs & Ht).
  split; [done |]. split; [done |]. simpl in Ht.
  eapply Forall_impl; [exact Ht |]. by intros t [provided ->].
Qed.

Lemma X4_registered_instances_are_operating_witness :
  let sdk : Sdk := λ _, Samples.healthy [Samples.tool "read"] in
  let config :=
    {| merged_mcpServers := {[ "files" := Samples.launch "files-server" ]};
       merged_sources := {[ "files" := project ]} |} in
  let instance := set_source project
                    (operatingInstance sdk "files" (Samples.launch "files-server")
                       {| resp_tools := Some [Samples.tool "read"] |}) in
  name instance = "files" ∧
  state instance = OPERATING ∧
  Forall (λ t, tool_serverName t = "files" ∧
               tool_name t = "files" +:+ "__" +:+ originalName t)
         (tools instance).
Proof.
  intros sdk config instance.
  apply (X4_registered_instances_are_operating
           (loadFromConfig sdk Samples.inOrder config Samples.freshManager).2
           "files" instance).
  - apply (reach_loadFromConfig sdk Samples.inOrder config Samples.freshManager
             (loadFromConfig sdk Samples.inOrder config Samples.freshManager).1
             _ (reach_new [])).
    reflexivity.
  - reflexivity.
Defined.

(** X5: in every such state [callTool] never answers
    [SERVER_CRASHED]: a call succeeds, or fails with [TOOL_NOT_FOUND], or
    fails with [TOOL_EXECUTION_FAILED]. *)
Theorem X5_no_server_crashed_in_reachable_states
    (this : Manager) (toolName : string) (args : Value) :
  Reachable this →
  ∃ result,
    callTool toolName args this = (Normal result, this) ∧
    (success result = true ∨
     te_code <$> tr_error result = Some MCP_ERROR_CODES.TOOL_NOT_FOUND ∨
     te_code <$> tr_error result = Some MCP_ERROR_CODES.TOOL_EXECUTION_FAILED).
Proof.
  intros Hreach. apply reachable_sound in Hreach.
  unfold callTool. destruct (indexOf toolName "__" =? -1); [by eexists; eauto |].
  unfold mbind, M_bind, getState, try_catch, lift. simpl.
  destruct (JsMap.get _ (this_servers this)) as [server|] eqn:Hget;
    [| by eexists; eauto].
  destruct (get_Forall _ _ _ _ Hreach Hget) as (_ & Hs & _). simpl in Hs.
  rewrite decide_False by (by intros H; apply H).
  destruct (client_callTool _ _ _); eexists; eauto.
Qed.

Lemma X5_no_server_crashed_in_reachable_states_witness :
  let sdk : Sdk := λ _, Samples.healthy [Samples.tool "read"] in
  let config :=
    {| merged_mcpServers := {[ "files" := Samples.launch "files-server" ]};
       merged_sources := {[ "files" := project ]} |} in
  let this := (loadFromConfig sdk Samples.inOrder config Samples.freshManager).2 in
  ∃ result,
    callTool "files__read" (Obj []) this = (Normal result, this) ∧
    (success result = true ∨
     te_code <$> tr_error result = Some MCP_ERROR_CODES.TOOL_NOT_FOUND ∨
     te_code <$> tr_error result = Some MCP_ERROR_CODES.TOOL_EXECUTION_FAILED).
Proof.
  intros sdk config this.
  apply (X5_no_server_crashed_in_reachable_states this "files__read" (Obj [])).
  apply (reach_loadFromConfig sdk Samples.inOrder config Samples.freshManager
           (loadFromConfig sdk Samples.inOrder config Samples.freshManager).1
           _ (reach_new [])).
  reflexivity.
Defined.

(** ** [getTools] again, and [callTool] after [cleanup] *)

Lemma set_get_is_Some {V} (m : list (string * V)) k k' v :
  is_Some (JsMap.get k m) → is_Some (JsMap.get k (JsMap.set k' v m)).
Proof.
  intros H. destruct (decide (k = k')) as [->|Hne].
  - rewrite get_set_eq. by eexists.
  - by rewrite get_set_ne.
Qed.

Lemma registerTools_keys_present index (ts : list McpTool) :
  Forall (λ t, is_Some (JsMap.get (tool_name t) index)) ts →
  (registerTools index ts).*1 = index.*1.
Proof.
  revert index. induction ts as [|t ts IH]; intros index H; [done |].
  apply Forall_cons in H as [Ht Hts]. simpl.
  change (foldl _ ?i ts) with (registerTools i ts).
  rewrite IH.
  - by apply set_keys_present.
  - eapply Forall_impl; [exact Hts |]. intros t'. apply set_get_is_Some.
Qed.

Lemma registerTools_has index (ts : list McpTool) t :
  t ∈ ts → is_Some (JsMap.get (tool_name t) (registerTools index ts)).
Proof.
  intros Hin. rewrite registerTools_get.
  destruct (last (filter (λ t', tool_name t' = tool_name t) ts)) eqn:E;
    [by eexists |].
  apply last_None in E.
  assert (t ∈ filter (λ t', tool_name t' = tool_name t) ts) as H
    by by apply list_elem_of_filter.
  rewrite E in H. by apply elem_of_nil in H.
Qed.

(** X6: [getTools] called twice in a row returns the same list both
    times; the second call changes nothing that can be observed of the
    manager: the registry and the console are as they were, the index
    has the same names in the same order, and every name leads to the
    same tool. *)
Theorem X6_getTools_twice (this : Manager) :
  ∃ found this1 this2,
    getTools this = (Normal found, this1) ∧
    getTools this1 = (Normal found, this2) ∧
    this_servers this2 = this_servers this1 ∧
    console this2 = console this1 ∧
    (this_tools this2).*1 = (this_tools this1).*1 ∧
    ∀ nm : string,
      JsMap.get nm (this_tools this2) = JsMap.get nm (this_tools this1).
Proof.
  set (found := concat (tools <$> filter (λ server, state server = OPERATING)
                                          (JsMap.values (this_servers this)))).
  set (this1 := set_toolIndex (registerTools (this_tools this) found) this).
  exists found, this1, (set_toolIndex (registerTools (this_tools this1) found) this1).
  split; [apply getTools_run |].
  split; [by rewrite getTools_run |]. simpl.
  split; [done |]. split; [done |]. split.
  - apply registerTools_keys_present, Forall_forall.
    intros t Hin. by apply registerTools_has.
  - intros nm. rewrite !registerTools_get.
    by destruct (last (filter (λ t, tool_name t = nm) found)).
Qed.

(** X7: once [cleanup] has run, every call of [callTool], whatever the
    name and the arguments, fails with [TOOL_NOT_FOUND], no client is
    reached, and [getServerStatus] is undefined for every name. *)
Theorem X7_nothing_is_callable_after_cleanup
    (sched : Schedule) (this : Manager) (toolName n : string) (args : Value) :
  ∃ this' result,
    cleanup sched this = (Normal tt, this') ∧
    callTool toolName args this' = (Normal result, this') ∧
    success result = false ∧
    te_code <$> tr_error result = Some MCP_ERROR_CODES.TOOL_NOT_FOUND ∧
    getServerStatus n this' = None.
Proof.
  eexists. unfold callTool.
  destruct (indexOf toolName "__" =? -1);
    (eexists; split; [apply cleanup_run |]; by repeat split).
Qed.

(** ** Namespaced names and routing *)

Section Routing.

Local Arguments String.append _ _ : simpl nomatch.

Lemma callTool_found toolName args (this : Manager) server :
  indexOf toolName "__" ≠ -1 →
  JsMap.get (slice toolName 0 (Some (indexOf toolName "__"))) (this_servers this)
    = Some server →
  state server = OPERATING →
  callTool toolName args this =
  (Normal
     match client_callTool (client server)
             (slice toolName (indexOf toolName "__" + 2) None) args with
     | Normal response =>
         {| success := true;
            content := Some (resp_content response);
            tr_error := None;
            metadata :=
              Some {| md_serverName := slice toolName 0 (Some (indexOf toolName "__"));
                      md_toolName := slice toolName (indexOf toolName "__" + 2) None |} |}
     | Throw err =>
         failure MCP_ERROR_CODES.TOOL_EXECUTION_FAILED (message err)
           toolName args (Some err)
     end,
   this).
Proof.
  intros Hidx Hget Hop. unfold callTool.
  apply Z.eqb_neq in Hidx. rewrite Hidx.
  unfold mbind, M_bind, getState, try_catch, lift. simpl.
  rewrite Hget. rewrite decide_False by (by intros H; apply H).
  by destruct (client_callTool _ _ _).
Qed.

Lemma namespaced_split s t :
  indexOf s "__" = -1 → endsWithUnderscore s = false →
  indexOf (namespaced s t) "__" = Z.of_nat (String.length s) ∧
  slice (namespaced s t) 0 (Some (indexOf (namespaced s t) "__")) = s ∧
  slice (namespaced s t) (indexOf (namespaced s t) "__" + 2) None = t.
Proof.
  intros Hsep Hend. apply indexOf_absent_iff in Hsep.
  assert (indexOf (namespaced s t) "__" = Z.of_nat (String.length s)) as ->.
  { unfold namespaced, indexOf. rewrite indexOfFrom_namespaced by done. lia. }
  split; [done |]. split; [apply slice_prefix |].
  unfold namespaced. rewrite <- app_assoc_string.
  replace (Z.of_nat (String.length s) + 2)
    with (Z.of_nat (String.length (s +:+ "__"))).
  - apply slice_suffix.
  - rewrite string_length_app. simpl. lia.
Qed.

(** X8: in a reachable state, for a server registered under a name
    that holds no separator and does not end in an underscore, calling
    any of its tools by the name [getTools] shows for it reaches the
    client of that server with the name the provider gave and the
    arguments unchanged: the answer of the client comes back as a
    success that names the server and the tool, and its exception as a
    [TOOL_EXECUTION_FAILED] failure. *)
Theorem X8_discovered_tools_are_callable
    (this : Manager) (n : string) (instance : McpServerInstance)
    (t : McpTool) (args : Value) :
  Reachable this →
  indexOf n "__" = -1 →
  endsWithUnderscore n = false →
  getServerStatus n this = Some instance →
  t ∈ tools instance →
  callTool (tool_name t) args this =
  (Normal
     match client_callTool (client instance) (originalName t) args with
     | Normal response =>
         {| success := true;
            content := Some (resp_content response);
            tr_error := None;
            metadata := Some {| md_serverName := n;
                                md_toolName := originalName t |} |}
     | Throw err =>
         failure MCP_ERROR_CODES.TOOL_EXECUTION_FAILED (message err)
           (tool_name t) args (Some err)
     end,
   this).
Proof.
  intros Hreach Hsep Hend Hget Hin. apply reachable_sound in Hreach.
  destruct (get_Forall _ _ _ _ Hreach Hget) as (_ & Hop & Ht). simpl in *.
  destruct (proj1 (Forall_forall _ _) Ht t Hin) as [provided ->]. simpl.
  destruct (namespaced_split n (pt_name provided) Hsep Hend) as (Hi & Hs & Hr).
  rewrite (callTool_found _ args this instance); rewrite ?Hs, ?Hr; try done.
  rewrite Hi. lia.
Qed.

Lemma X8_discovered_tools_are_callable_witness :
  let sdk : Sdk := λ _, Samples.healthy [Samples.tool "read"] in
  let config :=
    {| merged_mcpServers := {[ "files" := Samples.launch "files-server" ]};
       merged_sources := {[ "files" := project ]} |} in
  let this := (loadFromConfig sdk Samples.inOrder config Samples.freshManager).2 in
  let instance := set_source project
                    (operatingInstance sdk "files" (Samples.launch "files-server")
                       {| resp_tools := Some [Samples.tool "read"] |}) in
  let t := registered "files" (Samples.tool "read") in
  callTool (tool_name t) (Obj []) this =
  (Normal
     match client_callTool (client instance) (originalName t) (Obj []) with
     | Normal response =>
         {| success := true;
            content := Some (resp_content response);
            tr_error := None;
            metadata := Some {| md_serverName := "files";
                                md_toolName := originalName t |} |}
     | Throw err =>
         failure MCP_ERROR_CODES.TOOL_EXECUTION_FAILED (message err)
           (tool_name t) (Obj []) (Some err)
     end,
   this).
Proof.
  intros sdk config this instance t.
  apply (X8_discovered_tools_are_callable this "files" instance t (Obj [])).
  - apply (reach_loadFromConfig sdk Samples.inOrder config Samples.freshManager
             (loadFromConfig sdk Samples.inOrder config Samples.freshManager).1
             _ (reach_new [])).
    reflexivity.
  - reflexivity.
  - reflexivity.
  - reflexivity.
  - vm_compute. apply list_elem_of_here.
Defined.

(** X9: the names that [connectServer] gives to tools do not collide
    across servers: for server names that hold no separator and do not
    end in an underscore, two namespaced names are equal only when the
    server names are equal and the tool names are equal. *)
Theorem X9_namespaced_names_do_not_collide (s1 s2 t1 t2 : string) :
  indexOf s1 "__" = -1 → endsWithUnderscore s1 = false →
  indexOf s2 "__" = -1 → endsWithUnderscore s2 = false →
  namespaced s1 t1 = namespaced s2 t2 →
  s1 = s2 ∧ t1 = t2.
Proof.
  intros H1 E1 H2 E2 Heq.
  destruct (namespaced_split s1 t1 H1 E1) as (_ & Hs1 & Ht1).
  destruct (namespaced_split s2 t2 H2 E2) as (_ & Hs2 & Ht2).
  rewrite Heq in Hs1, Ht1. split; congruence.
Qed.

Lemma X9_namespaced_names_do_not_collide_witness :
  "github" = "github" ∧ "create_issue" = "create_issue".
Proof.
  apply (X9_namespaced_names_do_not_collide
           "github" "github" "create_issue" "create_issue"); reflexivity.
Defined.

Lemma prefix_sep_app s r :
  String.prefix "__" s = true → String.prefix "__" (s +:+ r) = true.
Proof.
  destruct s as [|c [|c' s]]; cbn [String.append String.prefix]; try done.
  - by destruct (ascii_dec "_" c).
  - destruct (ascii_dec "_" c); [| done].
    destruct (ascii_dec "_" c'); [| done]. intros _. by destruct (s +:+ r).
Qed.

Lemma occursIn_sep_length s :
  occursIn "__" s = true → (2 ≤ String.length s)%nat.
Proof.
  induction s as [|c s IH]; [done |].
  rewrite occursIn_eq. intros H. apply orb_true_iff in H as [H|H].
  - destruct s as [|c' s]; [| simpl String.length; lia].
    cbn [String.prefix] in H. by destruct (ascii_dec "_" c).
  - specialize (IH H). simpl String.length. lia.
Qed.

Lemma prefix_sep_app_false c s r :
  occursIn "__" s = true →
  String.prefix "__" (String c s) = false →
  String.prefix "__" (String c s +:+ r) = false.
Proof.
  intros Hocc. apply occursIn_sep_length in Hocc.
  destruct s as [|c' s]; [simpl in Hocc; lia |].
  cbn [String.append String.prefix].
  destruct (ascii_dec "_" c); [| done].
  destruct (ascii_dec "_" c'); [| done].
  destruct s; [simpl in Hocc; lia |]. done.
Qed.

Lemma indexOfFrom_app_found s r i :
  occursIn "__" s = true → 0 ≤ i →
  indexOfFrom "__" (s +:+ r) i = indexOfFrom "__" s i ∧
  i ≤ indexOfFrom "__" s i ∧
  indexOfFrom "__" s i + 2 ≤ i + Z.of_nat (String.length s).
Proof.
  revert i. induction s as [|c s IH]; intros i Hocc Hi; [done |].
  rewrite (indexOfFrom_eq _ (String c s)), (indexOfFrom_eq _ (String c s +:+ r)).
  destruct (String.prefix "__" (String c s)) eqn:Hp.
  - rewrite (prefix_sep_app _ r Hp).
    pose proof (occursIn_sep_length _ Hocc). lia.
  - rewrite occursIn_eq, Hp in Hocc. simpl in Hocc.
    rewrite (prefix_sep_app_false c s r Hocc Hp).
    cbn [String.append]. destruct (IH (i + 1) Hocc ltac:(lia)) as (-> & ? & ?).
    simpl String.length. lia.
Qed.

Lemma substring_length s (n : nat) :
  (n ≤ String.length s)%nat → String.length (String.substring 0 n s) = n.
Proof.
  revert n. induction s as [|c s IH]; intros [|n] H; simpl in *; try done.
  - lia.
  - rewrite IH; [done | lia].
Qed.

(** X10: when the name of a server holds the separator, [callTool]
    never looks that server up for one of its own tools: the prefix it
    cuts from the namespaced name stops at the first separator, inside
    the server name, so the outcome of the call is the same whether or
    not, and with whatever instance, the server is registered. *)
Theorem X10_separator_in_server_name_is_never_routed
    (s t : string) (args : Value) (this : Manager) (instance : McpServerInstance) :
  occursIn "__" s = true →
  slice (namespaced s t) 0 (Some (indexOf (namespaced s t) "__")) ≠ s ∧
  (callTool (namespaced s t) args
     (set_servers (JsMap.set s instance (this_servers this)) this)).1 =
  (callTool (namespaced s t) args this).1.
Proof.
  intros Hocc.
  destruct (indexOfFrom_app_found s ("__" +:+ t) 0 Hocc ltac:(lia))
    as (Happ & Hlo & Hhi).
  assert (slice (namespaced s t) 0 (Some (indexOf (namespaced s t) "__")) ≠ s)
    as Hne.
  { unfold indexOf, namespaced. rewrite Happ.
    set (i := indexOfFrom "__" s 0) in *.
    intros Heq. apply (f_equal String.length) in Heq. revert Heq.
    unfold slice. rewrite string_length_app.
    replace (0 <? 0) with false by done.
    destruct (Z.ltb_spec i 0); [lia |].
    rewrite !Z.min_l by lia. rewrite Z.sub_0_r. simpl Z.to_nat.
    rewrite substring_length; [lia |].
    rewrite string_length_app. lia. }
  split; [exact Hne |].
  unfold callTool. destruct (indexOf (namespaced s t) "__" =? -1); [done |].
  unfold mbind, M_bind, getState, try_catch, lift. simpl.
  rewrite get_set_ne by done.
  destruct (JsMap.get _ (this_servers this)) as [server|]; [| done].
  destruct (decide (state server ≠ OPERATING)); [done |].
  by destruct (client_callTool _ _ _).
Qed.

Lemma X10_separator_in_server_name_is_never_routed_witness :
  let s := "my__server" in
  let t := "read" in
  let instance :=
    Samples.running s (Samples.healthy [Samples.tool t]) [Samples.tool t] in
  slice (namespaced s t) 0 (Some (indexOf (namespaced s t) "__")) ≠ s ∧
  (callTool (namespaced s t) (Obj [])
     (set_servers (JsMap.set s instance (this_servers Samples.freshManager))
        Samples.freshManager)).1 =
  (callTool (namespaced s t) (Obj []) Samples.freshManager).1.
Proof.
  intros s t instance.
  apply (X10_separator_in_server_name_is_never_routed s t (Obj [])
           Samples.freshManager instance).
  reflexivity.
Defined.

End Routing.

(** ** The configuration loader, further *)

Import MergeNotices.

Section MergeFurther.

Implicit Types (l : list (string * McpServerConfig)) (merged : Merging).

Lemma foldl_mergeProjectEntry_console (base : gmap string McpServerConfig)
    (proto : Prototype) l merged console :
  plain merged → NoDup l.*1 → "__proto__" ∉ l.*1 →
  prototype merged = proto →
  Forall (λ entry, merged_mcpServers (properties merged) !! entry.1 =
                   base !! entry.1) l →
  (foldl mergeProjectEntry (merged, console) l).2 =
  console ++ (ConsoleInfo ∘ overrideNotice <$>
              filter (λ name, Is_true (truthy
                        match base !! name with
                        | Some config => EntryValue config
                        | None => inheritedFrom proto name
                        end)) l.*1).
Proof.
  revert merged console.
  induction l as [|[n c] l IH]; intros merged console Hp Hnd Hno Hproto Hinv; simpl.
  - by rewrite app_nil_r.
  - apply NoDup_cons in Hnd as [Hn Hnd].
    apply not_elem_of_cons in Hno as [Hne Hno].
    apply Forall_cons in Hinv as [Hhere Hinv]. simpl in Hhere.
    pose proof (setEntry_plain n c project merged Hp) as Hset.
    rewrite decide_False in Hset by done.
    rewrite IH; [| by apply setEntry_keeps_plain | done | done
                 | by rewrite Hset | ].
    + rewrite filter_cons. unfold getServer. rewrite Hhere, Hproto.
      destruct (truthy _) eqn:Ht.
      * rewrite decide_True by exact I. csimpl. by rewrite <- app_assoc.
      * by rewrite decide_False by (intros H; exact H).
    + apply Forall_forall. intros e Hin. rewrite Hset. simpl.
      rewrite lookup_insert_ne.
      * by apply (proj1 (Forall_forall _ _) Hinv).
      * intros ->. apply Hn. apply list_elem_of_fmap. by exists e.
Qed.

Lemma mergeConfigs_console (G P : option McpConfig) (console : Console) :
  entriesOf P !! "__proto__" = None →
  (mergeConfigs G P console).2 =
  console ++ (ConsoleInfo ∘ overrideNotice <$> announced G P).
Proof.
  intros HP. unfold mergeConfigs, announced.
  set (m0 := {| properties := {| merged_mcpServers := ∅; merged_sources := ∅ |};
                prototype := ObjectPrototype |}).
  set (m1 := match G with Some g => _ | None => m0 end).
  assert (plain m0) as Hp0 by done.
  assert (plain m1 ∧ prototype m1 = prototypeAfter G ∧
          ∀ n : string, merged_mcpServers (properties m1) !! n =
                        delete "__proto__" (entriesOf G) !! n)
    as (Hp1 & Hproto & H1).
  { destruct G as [g|]; subst m1; simpl.
    - destruct (foldl_setEntry global (map_to_list (mcpServers g)) m0 Hp0
                  (NoDup_fst_map_to_list _)) as (Hp & Hpr & Hl).
      split; [exact Hp |]. split.
      + rewrite Hpr, list_to_map_to_list. done.
      + intros n. destruct (decide (n = "__proto__")) as [->|Hn].
        * rewrite lookup_delete_eq. apply Hp.
        * rewrite lookup_delete_ne by done. destruct (Hl n Hn) as [-> _].
          unfold m0. simpl.
          by rewrite list_to_map_to_list, (right_id_L ∅ (∪)).
    - split; [done |]. split; [done |]. intros n.
      by rewrite delete_empty. }
  clearbody m1.
  destruct P as [p|]; simpl in *.
  - destruct (foldl mergeProjectEntry (m1, console) (map_to_list (mcpServers p)))
      as [merged console'] eqn:E. simpl.
    pose proof (foldl_mergeProjectEntry_console (delete "__proto__" (entriesOf G))
                  (prototypeAfter G) (map_to_list (mcpServers p)) m1 console) as F.
    rewrite E in F. simpl in F. apply F; try done.
    + apply NoDup_fst_map_to_list.
    + intros Hin. apply list_elem_of_fmap in Hin as ([n c] & Hn & Hin).
      simpl in Hn. subst n. apply elem_of_map_to_list in Hin. congruence.
    + apply Forall_true. intros e. apply H1.
  - rewrite map_to_list_empty. simpl. by rewrite app_nil_r.
Qed.

Lemma fieldOf_names (config : McpServerConfig) (n : string) :
  n ∈ objectPrototypeNames → fieldOf config n = None.
Proof.
  unfold objectPrototypeNames. intros H.
  repeat (apply elem_of_cons in H as [->|H]; [reflexivity |]).
  by apply elem_of_nil in H.
Qed.

Lemma readAfter_truthy (G : option McpConfig) (n : string) :
  n ≠ "__proto__" →
  truthy (readAfter G n) = true ↔
  is_Some (entriesOf G !! n) ∨ n ∈ objectPrototypeNames ∨
  ∃ config v, entriesOf G !! "__proto__" = Some config ∧
              fieldOf config n = Some v ∧ truthy v = true.
Proof.
  intros Hn. unfold readAfter, prototypeAfter.
  rewrite lookup_delete_ne by done.
  destruct (entriesOf G !! n) as [c|] eqn:En; [by split; eauto |].
  unfold inheritedFrom.
  destruct (entriesOf G !! "__proto__") as [config|] eqn:Ep.
  - destruct (fieldOf config n) as [v|] eqn:Ef; simpl.
    + split; [by intros Ht; right; right; eauto |].
      intros [[? ?]|[Hin|(config' & v' & E1 & E2 & Ht)]]; [done | |].
      * by rewrite (fieldOf_names config n Hin) in Ef.
      * congruence.
    + case_bool_decide as Hin; simpl.
      * split; [by eauto | done].
      * split; [done |].
        intros [[? ?]|[?|(config' & v' & E1 & E2 & Ht)]]; [done | done |].
        congruence.
  - case_bool_decide as Hin; simpl.
    + split; [by eauto | done].
    + split; [done |].
      intros [[? ?]|[?|(config' & v' & E1 & _)]]; done.
Qed.

End MergeFurther.

(** X11: the merged configuration gives a provenance to exactly the
    names it gives a server to, and these are the names of the project
    configuration together with those of the global one, but for the
    name [__proto__], which the result never has; so the size of the
    result is at most the sum of the sizes of the two. *)
Theorem X11_merged_names (G P : option McpConfig) (console : Console) :
  ∃ merged console',
    mergeConfigs G P console = (Normal merged, console') ∧
    dom (merged_mcpServers merged) =
      (dom (entriesOf P) ∪ dom (entriesOf G)) ∖ {[ "__proto__" ]} ∧
    dom (merged_sources merged) = dom (merged_mcpServers merged) ∧
    (size (merged_mcpServers merged) ≤ size (entriesOf G) + size (entriesOf P))%nat.
Proof.
  destruct (mergeConfigs_union G P console) as (merged & console' & E & Hs & Ht).
  exists merged, console'. split; [done |].
  assert (dom (merged_mcpServers merged) =
          (dom (entriesOf P) ∪ dom (entriesOf G)) ∖ {[ "__proto__" ]})
    as Hd by (by rewrite Hs, dom_delete_L, dom_union_L).
  split; [done |]. split.
  - by rewrite Hd, Ht, dom_delete_L, dom_union_L, !dom_fmap_L.
  - rewrite <- !size_dom, Hd.
    etransitivity;
      [apply subseteq_size; intros x Hx;
       apply elem_of_difference in Hx as [Hx _]; exact Hx |].
    rewrite size_union_alt.
    assert (dom (entriesOf G) ∖ dom (entriesOf P) ⊆ dom (entriesOf G)) as Hsub.
    { intros x Hx. by apply elem_of_difference in Hx as [? _]. }
    apply subseteq_size in Hsub. lia.
Qed.

(** X12: when the project configuration has no server called
    [__proto__], [mergeConfigs] prints one notice for each of its names
    under which the read [merged.mcpServers[name]] is truthy, in the
    order of the entries of the project configuration, and nothing else.
    These are the names that the global configuration defines too, the
    names of the members of [Object.prototype] ([constructor],
    [toString], ...), for which the notice is printed although the
    global configuration has no such server, and, when the global
    configuration has an entry called [__proto__], the names of the
    truthy fields of that entry. With no project configuration nothing
    is printed. *)
Theorem X12_one_notice_per_overridden_name
    (G P : option McpConfig) (console : Console) :
  entriesOf P !! "__proto__" = None →
  ∃ merged,
    mergeConfigs G P console =
      (Normal merged,
       console ++ (ConsoleInfo ∘ overrideNotice <$> announced G P)) ∧
    (∀ n : string,
       n ∈ announced G P ↔
       is_Some (entriesOf P !! n) ∧
       (is_Some (entriesOf G !! n) ∨ n ∈ objectPrototypeNames ∨
        ∃ config v, entriesOf G !! "__proto__" = Some config ∧
                    fieldOf config n = Some v ∧ truthy v = true)) ∧
    NoDup (announced G P) ∧
    (mergeConfigs G None console).2 = console.
Proof.
  intros HP.
  destruct (mergeConfigs_union G P console) as (merged & console' & E & _).
  exists merged.
  pose proof (mergeConfigs_console G P console HP) as Hc.
  rewrite E in Hc. simpl in Hc. subst console'.
  split; [done |]. split; [| split].
  - intros n. unfold announced. rewrite list_elem_of_filter.
    rewrite list_elem_of_fmap, Is_true_true. split.
    + intros [Ht ([n' c] & -> & Hin)]. apply elem_of_map_to_list in Hin.
      simpl in *. split; [by eexists |].
      apply readAfter_truthy; [congruence | done].
    + intros [[c Hc] Hread]. split.
      * apply readAfter_truthy; [congruence | done].
      * exists (n, c). split; [done |]. by apply elem_of_map_to_list.
  - apply NoDup_filter, NoDup_fst_map_to_list.
  - pose proof (mergeConfigs_console G None console eq_refl) as Hn.
    unfold announced in Hn. simpl in Hn.
    rewrite map_to_list_empty in Hn. simpl in Hn. by rewrite app_nil_r in Hn.
Qed.

Lemma X12_one_notice_per_overridden_name_witness :
  let G := Some {| mcpServers := {[ "serena" := Samples.launch "serena-global" ]} |} in
  let P := Some {| mcpServers := {[ "serena" := Samples.launch "serena-project";
                                    "constructor" := Samples.launch "builder";
                                    "files" := Samples.launch "files-server" ]} |} in
  ∃ merged,
    mergeConfigs G P [] =
      (Normal merged, [] ++ (ConsoleInfo ∘ overrideNotice <$> announced G P)) ∧
    (∀ n : string,
       n ∈ announced G P ↔
       is_Some (entriesOf P !! n) ∧
       (is_Some (entriesOf G !! n) ∨ n ∈ objectPrototypeNames ∨
        ∃ config v, entriesOf G !! "__proto__" = Some config ∧
                    fieldOf config n = Some v ∧ truthy v = true)) ∧
    NoDup (announced G P) ∧
    (mergeConfigs G None []).2 = [].
Proof.
  intros G P.
  apply (X12_one_notice_per_overridden_name G P []).
  reflexivity.
Defined.

(** With no global configuration at all, a project server called
    [constructor] is announced as defined in both. *)
Example notice_for_a_member_of_Object_prototype :
  let P := Some {| mcpServers := {[ "constructor" := Samples.launch "builder" ]} |} in
  (mergeConfigs None P []).2 = [ConsoleInfo (overrideNotice "constructor")].
Proof. reflexivity. Qed.

Lemma merged_source_project (G P : option McpConfig) (n : string) :
  n ≠ "__proto__" →
  let sources : gmap string ConfigSource :=
    delete "__proto__"
      (((λ _, project) <$> entriesOf P) ∪ ((λ _, global) <$> entriesOf G)) in
  (sources !! n = Some project ↔ is_Some (entriesOf P !! n)) ∧
  default global (sources !! n) =
    if decide (is_Some (entriesOf P !! n)) then project else global.
Proof.
  intros Hn sources. unfold sources.
  rewrite lookup_delete_ne by done. rewrite lookup_union, !lookup_fmap.
  case_decide as HP.
  - destruct HP as [c ->]. simpl.
    split; [| by destruct (entriesOf G !! n)].
    split; [by eexists | by destruct (entriesOf G !! n)].
  - destruct (entriesOf P !! n) eqn:E; [by destruct HP; eexists |].
    destruct (entriesOf G !! n); simpl; split; try done;
      split; try done; by intros [? ?].
Qed.

Lemma merged_entry_name (G P : option McpConfig) (sched : Schedule)
    (merged : MergedConfig) (entry : string * McpServerConfig) :
  merged_mcpServers merged = delete "__proto__" (entriesOf P ∪ entriesOf G) →
  entry ∈ settle sched (map_to_list (merged_mcpServers merged)) →
  entry.1 ≠ "__proto__".
Proof.
  intros Hs Hin. rewrite (settle_perm sched) in Hin. destruct entry as [n c].
  apply elem_of_map_to_list in Hin. rewrite Hs in Hin. simpl. intros ->.
  by rewrite lookup_delete_eq in Hin.
Qed.

(** X13: when the configuration loaded is the merge of a global and a
    project configuration, every error that [loadFromConfig] records
    points to the project file exactly for the names the project
    configuration defines and to the global file for the others, and
    every server it returns is tagged [project] exactly for the names
    the project configuration defines. *)
Theorem X13_provenance_through_merge_and_load
    (G P : option McpConfig) (console : Console)
    (sdk : Sdk) (sched : Schedule) (this0 : Manager) :
  ∃ merged console' result this',
    mergeConfigs G P console = (Normal merged, console') ∧
    loadFromConfig sdk sched merged this0 = (Normal result, this') ∧
    Forall (λ e, err_configPath e =
                 if decide (is_Some (entriesOf P !! err_serverName e))
                 then ".yolo/mcp.json"
                 else "~/.config/yolo-cli/mcp.json")
           (lr_errors result) ∧
    Forall (λ instance, source instance =
                        if decide (is_Some (entriesOf P !! name instance))
                        then project else global)
           (lr_servers result).
Proof.
  destruct (mergeConfigs_union G P console) as (merged & console' & E & Hs & Ht).
  destruct (loadFromConfig_run sdk sched merged this0) as (found & this' & E' & _).
  eexists merged, console', _, this'. split; [done |]. split; [exact E' |].
  simpl. split; apply Forall_forall.
  - intros e Hin. apply list_elem_of_omap in Hin as ([n c] & Hentry & He).
    pose proof (merged_entry_name G P sched merged (n, c) Hs Hentry) as Hn.
    simpl in Hn.
    unfold loadError in He. simpl in He.
    destruct (connectServer sdk n c); [done |]. injection He as <-. simpl.
    rewrite Ht.
    destruct (merged_source_project G P n Hn) as [Hiff _]. simpl in Hiff.
    destruct (decide (is_Some (entriesOf P !! n))) as [Hsome|Hsome].
    + rewrite decide_True; [done | by apply Hiff].
    + rewrite decide_False; [done |]. intros H. by apply Hsome, Hiff.
  - intros i Hin. apply list_elem_of_omap in Hin as ([n c] & Hentry & Hi).
    pose proof (merged_entry_name G P sched merged (n, c) Hs Hentry) as Hn.
    simpl in Hn.
    destruct (loadedInstance_sound sdk merged (n, c) i Hi) as [(Hname & _) Hsrc].
    simpl in Hname, Hsrc. rewrite Hname, Hsrc, Ht.
    by destruct (merged_source_project G P n Hn) as [_ ->].
Qed.

(** X20: but for the name [__proto__], [mergeConfigs] is the project
    configuration laid over the global one. For every global
    configuration [G] and project configuration [P] (each possibly
    [null]) and every other name, the result has the entry of [P] tagged
    [project] when [P] has the name, else the entry of [G] tagged
    [global] when [G] has it, and else neither an entry nor a tag; under
    the name [__proto__] it has neither, whatever [G] and [P] hold.
    Merging [null] with [null] gives the empty configuration and prints
    nothing. *)
Theorem X20_precedence_for_every_other_name
    (G P : option McpConfig) (console : Console) :
  (∃ merged console',
     mergeConfigs G P console = (Normal merged, console') ∧
     ∀ name : string,
       if decide (name = "__proto__") then
         merged_mcpServers merged !! name = None ∧
         merged_sources merged !! name = None
       else
         match entriesOf P !! name, entriesOf G !! name with
         | Some config, _ =>
             merged_mcpServers merged !! name = Some config ∧
             merged_sources merged !! name = Some project
         | None, Some config =>
             merged_mcpServers merged !! name = Some config ∧
             merged_sources merged !! name = Some global
         | None, None =>
             merged_mcpServers merged !! name = None ∧
             merged_sources merged !! name = None
         end) ∧
  mergeConfigs None None console =
    (Normal {| merged_mcpServers := ∅; merged_sources := ∅ |}, console).
Proof.
  split; [| done].
  destruct (mergeConfigs_union G P console) as (merged & console' & E & Hs & Ht).
  exists merged, console'. split; [done |]. intros name.
  rewrite Hs, Ht. case_decide as Hn.
  - subst name. by rewrite !lookup_delete_eq.
  - rewrite !lookup_delete_ne by done.
    rewrite !lookup_union, !lookup_fmap.
    destruct (entriesOf P !! name), (entriesOf G !! name); done.
Qed.

(** ** [discoverConfigs], whichever read settles first *)

Lemma slotOutcome_functional filePath r slot printed slot' printed' :
  slotOutcome filePath r slot printed →
  slotOutcome filePath r slot' printed' →
  slot = slot' ∧ printed = printed'.
Proof.
  unfold slotOutcome. destruct r as [[msg|v]|err]; intros [-> ->] [-> ->]; done.
Qed.

(** X14: the two slots that [discoverConfigs] returns do not depend on
    which of the two reads settles first; the lines printed are the same
    too, up to their order. *)
Theorem X14_discoverConfigs_order_of_settling
    (e : Env) (workingDir : option string) (console : Console) :
  ∃ global_ project_ console1 console2,
    discoverConfigs e workingDir true console =
      (Normal (global_, project_), console1) ∧
    discoverConfigs e workingDir false console =
      (Normal (global_, project_), console2) ∧
    console1 ≡ₚ console2.
Proof.
  unfold discoverConfigs, mbind, M_bind, mret, M_ret.
  set (globalPath := getGlobalConfigPath e).
  set (projectPath := getProjectConfigPath e workingDir).
  destruct (loadConfigFile_run e projectPath console) as (p & wp & -> & Hp).
  destruct (loadConfigFile_run e globalPath (console ++ wp)) as (g & wg & -> & Hg).
  destruct (loadConfigFile_run e globalPath console) as (g' & wg' & -> & Hg').
  destruct (loadConfigFile_run e projectPath (console ++ wg')) as (p' & wp' & -> & Hp').
  destruct (slotOutcome_functional _ _ _ _ _ _ Hg Hg') as [<- <-].
  destruct (slotOutcome_functional _ _ _ _ _ _ Hp Hp') as [<- <-].
  eexists g, p, _, _. split; [done |]. split; [done |].
  rewrite <- !app_assoc. apply Permutation_app_head, Permutation_app_comm.
Qed.

(** ** The chat interface and the tool executor *)

Import ToolExecutor ChatInterface.

Section SetAll.

Context {A : Type} (key : A → string).
Implicit Types (m : list (string * A)) (l : list A).

Lemma setAll_get m l k :
  JsMap.get k (foldl (λ m x, JsMap.set (key x) x m) m l) =
  match last (filter (λ x, key x = k) l) with
  | Some x => Some x
  | None => JsMap.get k m
  end.
Proof.
  induction l as [|x l IH] using rev_ind; [done |].
  rewrite foldl_app, filter_app, filter_cons, filter_nil. simpl.
  destruct (decide (key x = k)) as [<-|Hne].
  - by rewrite last_snoc, get_set_eq.
  - rewrite app_nil_r, get_set_ne by done. apply IH.
Qed.

Lemma setAll_get_other m l k :
  Forall (λ x, key x ≠ k) l → JsMap.get k (foldl (λ m x, JsMap.set (key x) x m) m l) = JsMap.get k m.
Proof.
  intros H. rewrite setAll_get.
  destruct (last (filter (λ x, key x = k) l)) as [x|] eqn:E; [| done].
  apply last_Some_elem_of, list_elem_of_filter in E as [Hk Hin].
  by destruct (proj1 (Forall_forall _ _) H x Hin).
Qed.

Lemma setAll_has m l x :
  x ∈ l → is_Some (JsMap.get (key x) (foldl (λ m x, JsMap.set (key x) x m) m l)).
Proof.
  intros Hin. rewrite setAll_get.
  destruct (last (filter (λ x', key x' = key x) l)) eqn:E; [by eexists |].
  apply last_None in E.
  assert (x ∈ filter (λ x', key x' = key x) l) as H
    by by apply list_elem_of_filter.
  rewrite E in H. by apply elem_of_nil in H.
Qed.

Lemma setAll_keys_present m l :
  Forall (λ x, is_Some (JsMap.get (key x) m)) l → (foldl (λ m x, JsMap.set (key x) x m) m l).*1 = m.*1.
Proof.
  revert m. induction l as [|x l IH]; intros m H; [done |].
  apply Forall_cons in H as [Hx Hl]. simpl.
  rewrite IH.
  - by apply set_keys_present.
  - eapply Forall_impl; [exact Hl |]. intros x'. apply set_get_is_Some.
Qed.

End SetAll.

Lemma callTool_result_shape toolName args (this : Manager) :
  ∃ result,
    callTool toolName args this = (Normal result, this) ∧
    if success result
    then tr_error result = None ∧ is_Some (content result)
    else content result = None ∧ is_Some (tr_error result).
Proof.
  unfold callTool. destruct (indexOf toolName "__" =? -1).
  { eexists. split; [done |]. simpl. split; [done | by eexists]. }
  unfold mbind, M_bind, getState, try_catch, lift. simpl.
  destruct (JsMap.get _ (this_servers this)) as [server|].
  2: { eexists. split; [done |]. simpl. split; [done | by eexists]. }
  destruct (decide (state server ≠ OPERATING)).
  { eexists. split; [done |]. simpl. split; [done | by eexists]. }
  destruct (client_callTool _ _ _); eexists; (split; [done |]); simpl;
    split; try done; by eexists.
Qed.

(** X15: a call of an MCP tool that fails reaches the chat loop as an
    unsuccessful result with an empty output and, as its error, the
    message of the structured error of [callTool]; the fallback text
    [Tool execution failed] is never used, since every failure of
    [callTool] carries its error; the manager is left as it was. *)
Theorem X15_failed_call_through_the_executor
    (numberToString : Z → string) (toolName : string) (args : Value)
    (this : Manager) :
  ∃ result,
    callTool toolName args this = (Normal result, this) ∧
    if success result then True
    else
      ∃ err,
        tr_error result = Some err ∧
        mcpExecutor numberToString toolName args this =
          (Normal {| exec_success := false;
                     exec_output := "";
                     exec_error := Some (te_message err) |},
           this).
Proof.
  destruct (callTool_result_shape toolName args this) as (result & E & Hshape).
  exists result. split; [done |].
  destruct (success result) eqn:Hs; [done |].
  destruct Hshape as [_ [err Herr]]. exists err. split; [done |].
  unfold mcpExecutor, mbind, M_bind. rewrite E, Hs. simpl.
  by rewrite Herr.
Qed.

Lemma mapArray_textOf_wire (l : list ToolContent) :
  mapArray textOf (wire <$> l) = Normal ((λ c, Some (Str (shown c))) <$> l).
Proof.
  induction l as [|c l IH]; [done |]. csimpl. rewrite IH.
  by destruct c as [text|data mime|uri [m|] [t|]].
Qed.

Lemma join_shown numberToString (l : list ToolContent) :
  join numberToString newline ((λ c, Some (Str (shown c))) <$> l) =
  String.concat newline (shown <$> l).
Proof.
  unfold join. f_equal. induction l as [|c l IH]; [done |].
  csimpl. by rewrite <- IH.
Qed.

(** X16: when the call succeeds with content made of text, image and
    embedded-resource items, the executor does not throw and its output
    is the texts of the text items joined by line feeds, in order, with
    an empty line in the place of every image and every resource (the
    text of a resource included). *)
Theorem X16_output_of_a_successful_call
    (numberToString : Z → string) (toolName : string) (args : Value)
    (this : Manager) (result : ToolResult) (items : list ToolContent) :
  callTool toolName args this = (Normal result, this) →
  success result = true →
  content result = Some (wire <$> items) →
  mcpExecutor numberToString toolName args this =
    (Normal {| exec_success := true;
               exec_output := String.concat newline (shown <$> items);
               exec_error := None |},
     this).
Proof.
  intros E Hs Hc. unfold mcpExecutor, mbind, M_bind, lift. rewrite E, Hs. simpl.
  rewrite Hc, mapArray_textOf_wire. simpl. by rewrite join_shown.
Qed.

Lemma X16_output_of_a_successful_call_witness :
  mcpExecutor ChatSamples.decimal "notes__list" (Obj []) ChatSamples.withNotes =
    (Normal {| exec_success := true;
               exec_output := String.concat newline (shown <$> ChatSamples.page);
               exec_error := None |},
     ChatSamples.withNotes).
Proof.
  apply (X16_output_of_a_successful_call ChatSamples.decimal "notes__list" (Obj [])
           ChatSamples.withNotes
           {| success := true;
              content := Some (wire <$> ChatSamples.page);
              tr_error := None;
              metadata := Some {| md_serverName := "notes"; md_toolName := "list" |} |}
           ChatSamples.page).
  - reflexivity.
  - reflexivity.
  - reflexivity.
Defined.

Lemma occursIn_namespaced s t : occursIn "__" (namespaced s t) = true.
Proof.
  unfold namespaced. induction s as [|c s IH].
  - rewrite occursIn_eq. by destruct t.
  - rewrite occursIn_eq. apply orb_true_iff. right. exact IH.
Qed.

Lemma getTools_names_of_sound (this : Manager) :
  soundRegistry this →
  Forall (λ t, occursIn "__" (tool_name t) = true)
    (concat (tools <$> filter (λ server, state server = OPERATING)
                              (JsMap.values (this_servers this)))).
Proof.
  unfold soundRegistry, JsMap.values.
  induction 1 as [|[n i] m (_ & _ & Ht) Hm IH]; [constructor |].
  csimpl. rewrite filter_cons. destruct (decide (state i = OPERATING)); [| done].
  csimpl. apply Forall_app. split; [| done].
  eapply Forall_impl; [exact Ht |].
  intros t [provided ->]. apply occursIn_namespaced.
Qed.

(** X17: registering the MCP tools, in any state reached by use of the
    manager, never replaces or removes a tool of the executor whose name
    holds no separator; none of the eight built-in tools has one, so the
    built-in tools stay as they are. *)
Theorem X17_builtin_tools_are_not_replaced
    (numberToString : Z → string) (known : list (string * Tool Manager))
    (this : Manager) :
  Reachable this →
  ∃ known' this',
    registerMcpTools numberToString known this = (Normal known', this') ∧
    (∀ b : string, occursIn "__" b = false →
                   JsMap.get b known' = JsMap.get b known) ∧
    Forall (λ b, JsMap.get b known' = JsMap.get b known) builtinNames.
Proof.
  intros Hreach. apply reachable_sound in Hreach.
  unfold registerMcpTools, mbind, M_bind. rewrite getTools_run. simpl.
  eexists _, _. split; [reflexivity |].
  match goal with
  | |- (∀ b, _ → JsMap.get b ?k' = _) ∧ _ =>
      assert (∀ b : string, occursIn "__" b = false →
                JsMap.get b k' = JsMap.get b known) as Hkeep
  end.
  { intros b Hb. unfold registerTools.
    apply (setAll_get_other (λ tool : Tool Manager, fn_name (definition tool))).
    apply Forall_fmap.
    eapply Forall_impl; [apply (getTools_names_of_sound this Hreach) |].
    intros t Ht. simpl in *. intros Heq. congruence. }
  split; [exact Hkeep |].
  repeat constructor; by apply Hkeep.
Qed.

Lemma X17_builtin_tools_are_not_replaced_witness :
  let sdk : Sdk := λ _, Samples.healthy [Samples.tool "read"; Samples.tool "bash"] in
  let config :=
    {| merged_mcpServers := {[ "files" := Samples.launch "files-server" ]};
       merged_sources := {[ "files" := project ]} |} in
  let this := (loadFromConfig sdk Samples.inOrder config Samples.freshManager).2 in
  ∃ known' this',
    registerMcpTools ChatSamples.decimal ChatSamples.builtins this
      = (Normal known', this') ∧
    (∀ b : string, occursIn "__" b = false →
                   JsMap.get b known' = JsMap.get b ChatSamples.builtins) ∧
    Forall (λ b, JsMap.get b known' = JsMap.get b ChatSamples.builtins)
           builtinNames.
Proof.
  intros sdk config this.
  apply (X17_builtin_tools_are_not_replaced ChatSamples.decimal
           ChatSamples.builtins this).
  apply (reach_loadFromConfig sdk Samples.inOrder config Samples.freshManager
           (loadFromConfig sdk Samples.inOrder config Samples.freshManager).1
           _ (reach_new [])).
  reflexivity.
Defined.

(** X18: the chat interface registers the MCP tools again for every
    message. After one registration every tool that [getTools] shows is
    known to the executor under its namespaced name; a second
    registration returns the same tools of the manager and leaves the
    executor with the same names in the same order and the same tool
    under every name, so the list of tools does not grow. *)
Theorem X18_registration_can_be_repeated
    (numberToString : Z → string) (known : list (string * Tool Manager))
    (this : Manager) :
  ∃ found this1 known1 this2 known2,
    getTools this = (Normal found, this1) ∧
    registerMcpTools numberToString known this = (Normal known1, this1) ∧
    registerMcpTools numberToString known1 this1 = (Normal known2, this2) ∧
    Forall (λ t, hasTool (tool_name t) known1 = true) found ∧
    getToolNames known2 = getToolNames known1 ∧
    ∀ n : string, JsMap.get n known2 = JsMap.get n known1.
Proof.
  set (found := concat (tools <$> filter (λ server, state server = OPERATING)
                                          (JsMap.values (this_servers this)))).
  set (this1 := set_toolIndex
                  (McpServerManager.registerTools (this_tools this) found) this).
  set (formatted := map (formatTool numberToString) found).
  exists found, this1, (ToolExecutor.registerTools formatted known),
    (set_toolIndex (McpServerManager.registerTools (this_tools this1) found) this1),
    (ToolExecutor.registerTools formatted
       (ToolExecutor.registerTools formatted known)).
  split; [apply getTools_run |].
  split; [by unfold registerMcpTools, mbind, M_bind; rewrite getTools_run |].
  split; [by unfold registerMcpTools, mbind, M_bind; rewrite getTools_run |].
  assert (∀ m, Forall (λ tool : Tool Manager,
                 is_Some (JsMap.get (fn_name (definition tool))
                            (ToolExecutor.registerTools formatted m))) formatted)
    as Hhas.
  { intros m. apply Forall_forall. intros tool Hin.
    by apply (setAll_has (λ tool : Tool Manager, fn_name (definition tool))). }
  split; [| split].
  - apply Forall_forall. intros t Hin. unfold hasTool.
    destruct (proj1 (Forall_forall _ _) (Hhas known)
                (formatTool numberToString t)) as [tool Ht].
    + by apply list_elem_of_In, in_map, list_elem_of_In.
    + simpl in Ht. by rewrite Ht.
  - unfold getToolNames, ToolExecutor.registerTools at 1.
    apply (setAll_keys_present (λ tool : Tool Manager, fn_name (definition tool))).
    apply Hhas.
  - intros n. unfold ToolExecutor.registerTools.
    rewrite !(setAll_get (λ tool : Tool Manager, fn_name (definition tool))).
    by destruct (last (filter _ formatted)).
Qed.

(** ** The options of an entry *)

Import ConnectOptions.

(** X19: the [timeout], the [url] and the [headers] of an entry have
    no effect on the connection attempt: [connectServer] hands the
    transport the command, the arguments and the environment only, so
    with other values of the three fields the attempt ends the same way,
    with the same state, tools and error, and differs only in the
    [config] that the instance keeps. *)
Theorem X19_timeout_url_headers_are_not_used
    (sdk : Sdk) (name : string) (config : McpServerConfig)
    (t : option Z) (u : option string) (h : option (gmap string string)) :
  connectServer sdk name (withOptions config t u h) =
  keeping (withOptions config t u h) (connectServer sdk name config).
Proof.
  assert (transportFor (withOptions config t u h) = transportFor config) as Ht
    by done.
  destruct (connect (sdk name) (transportFor config)) as [[]|e] eqn:H1.
  - destruct (listTools (sdk name)) as [response|e] eqn:H2.
    + rewrite (connectServer_succeeds sdk name config tt response H1 H2).
      rewrite <- Ht in H1.
      by rewrite (connectServer_succeeds sdk name _ tt response H1 H2).
    + rewrite (connectServer_listing_fails sdk name config tt e H1 H2).
      rewrite <- Ht in H1.
      by rewrite (connectServer_listing_fails sdk name _ tt e H1 H2).
  - rewrite (connectServer_spawn_fails sdk name config e H1).
    rewrite <- Ht in H1.
    by rewrite (connectServer_spawn_fails sdk name _ e H1).
Qed.
